(** * The rate-limit retry executor and the phase chain of
      [autogen/autogen_simple_demo.py]

    A shallow embedding of [SimpleInterviewPlatformWorkflow]: the error
    classification, the wait-time scraping and the retry loop of
    [_make_api_call], the five phase methods, [run] and [print_summary].

    Conventions of the embedding.
    - A Python [str] is a [string]; a character stands for a code point
      below 256.
    - A Python [int] is a [Z]; a Python [float] is a binary64 value of the
      standard library's IEEE 754 specification ([spec_float], precision 53,
      [emax] 1024).
    - An exception is a record of its type name and its message, the two
      things the handler looks at ([type(e).__name__] and [str(e)]).
    - The remote endpoint, the clock, the console and the file system are
      the environment: the outcome of each request is given by a function of
      the request's number, and what the process does to the outside is
      recorded in a chronological log of events. *)

From Stdlib Require Import ZArith QArith Qround List String Ascii Bool Lia.
From Stdlib Require Import Floats.SpecFloat.
Import ListNotations.
Open Scope string_scope.
Open Scope Z_scope.

(** ** Python strings *)

Module PyStr.

(** [str.lower] on one code point below 256: the ASCII capitals and the
    Latin-1 capitals (U+00C0 to U+00DE except the multiplication sign
    U+00D7) move up by 32, everything else is unchanged. *)
Definition lower_char (c : ascii) : ascii :=
  let n := N_of_ascii c in
  if ((65 <=? n) && (n <=? 90))%N
     || ((192 <=? n) && (n <=? 222) && negb (n =? 215))%N
  then ascii_of_N (n + 32)
  else c.

Fixpoint lower (s : string) : string :=
  match s with
  | EmptyString => EmptyString
  | String c t => String (lower_char c) (lower t)
  end.

(** [s.startswith(p)], returning what follows the prefix. *)
Fixpoint strip_prefix (p s : string) : option string :=
  match p, s with
  | EmptyString, _ => Some s
  | String _ _, EmptyString => None
  | String a p', String b s' =>
      if Ascii.eqb a b then strip_prefix p' s' else None
  end.

Definition starts_with (p s : string) : bool :=
  match strip_prefix p s with Some _ => true | None => false end.

(** [needle in s]: the needle starts at some position of [s]. *)
Fixpoint contains (needle s : string) : bool :=
  starts_with needle s
  || match s with
     | EmptyString => false
     | String _ t => contains needle t
     end.

(** The longest prefix whose characters all satisfy [p], and the rest. *)
Fixpoint span (p : ascii -> bool) (s : string) : string * string :=
  match s with
  | EmptyString => (EmptyString, EmptyString)
  | String c t =>
      if p c then let (a, b) := span p t in (String c a, b)
      else (EmptyString, s)
  end.

Fixpoint all_chars (p : ascii -> bool) (s : string) : bool :=
  match s with
  | EmptyString => true
  | String c t => p c && all_chars p t
  end.

End PyStr.
Import PyStr.

(** ** Exceptions and results *)

Record exn := mk_exn { exc_type : string; exc_msg : string }.

Inductive result (A : Type) :=
| Ok (a : A)
| Raise (e : exn).
Arguments Ok {A} a.
Arguments Raise {A} e.

(** ** The pattern [Please try again in ([\d.]+)([smh])] *)

Module Pattern.

(** [\d] on code points below 256: the ten ASCII digits. *)
Definition is_digit (c : ascii) : bool :=
  let n := N_of_ascii c in ((48 <=? n) && (n <=? 57))%N.

(** The class [[\d.]]. *)
Definition value_class (c : ascii) : bool :=
  is_digit c || Ascii.eqb c ".".

(** The class [[smh]]. *)
Definition unit_class (c : ascii) : bool :=
  Ascii.eqb c "s" || Ascii.eqb c "m" || Ascii.eqb c "h".

Definition literal : string := "Please try again in ".

(** An attempt to match the pattern with the match starting at the first
    character of [s].  [[\d.]+] is greedy and takes the longest run of
    digits and dots; giving characters of the run back cannot help, because
    the character then facing [[smh]] would be a digit or a dot.  So the
    attempt succeeds exactly when the run is not empty and is followed by a
    unit letter.  The result is (group 1, group 2). *)
Definition match_here (s : string) : option (string * ascii) :=
  match strip_prefix literal s with
  | None => None
  | Some rest =>
      match span value_class rest with
      | (EmptyString, _) => None
      | (_, EmptyString) => None
      | (tok, String u _) => if unit_class u then Some (tok, u) else None
      end
  end.

(** [re.search]: the match at the leftmost starting position. *)
Fixpoint re_search (s : string) : option (string * ascii) :=
  match match_here s with
  | Some g => Some g
  | None =>
      match s with
      | EmptyString => None
      | String _ t => re_search t
      end
  end.

End Pattern.
Import Pattern.

(** ** Python floats, on the strings the pattern can capture *)

Module PyFloat.

Definition prec : Z := 53.
Definition emax : Z := 1024.

Definition digit_val (c : ascii) : Z := Z.of_N (N_of_ascii c) - 48.

(** The number written by a string of decimal digits. *)
Fixpoint digits_val (acc : Z) (s : string) : Z :=
  match s with
  | EmptyString => acc
  | String c t => digits_val (10 * acc + digit_val c) t
  end.

(** The grammar of [float(s)] for a string of digits and dots: digits, at
    most one dot, digits, with at least one digit in all.  The result is
    the pair (n, k) of the number written by all the digits and the count
    of digits after the dot, for the value n / 10^k. *)
Definition parse_decimal (s : string) : option (Z * nat) :=
  let (ip, r) := span is_digit s in
  match r with
  | EmptyString =>
      match ip with
      | EmptyString => None
      | _ => Some (digits_val 0 ip, 0%nat)
      end
  | String c fp =>
      if Ascii.eqb c "." && all_chars is_digit fp
         && negb (String.eqb (ip ++ fp) EmptyString)
      then Some (digits_val 0 (ip ++ fp), String.length fp)
      else None
  end.

(** The binary64 value nearest to n / d (ties to even), infinite when
    that is beyond the largest finite value: the quotient is taken with
    enough bits and a record of what was lost, then rounded. *)
Definition round_ratio (n d : positive) : spec_float :=
  let '(q, e, l) := SFdiv_core_binary prec emax (Zpos n) 0 (Zpos d) 0 in
  binary_round_aux prec emax false q e l.

Definition value_error (s : string) : exn :=
  mk_exn "ValueError" ("could not convert string to float: '" ++ s ++ "'").

(** [float(s)]. *)
Definition float (s : string) : result spec_float :=
  match parse_decimal s with
  | None => Raise (value_error s)
  | Some (n, k) =>
      match n with
      | Zpos p => Ok (round_ratio p (Z.to_pos (10 ^ Z.of_nat k)))
      | _ => Ok (S754_zero false)
      end
  end.

(** An [int] operand of a float product is converted to float first. *)
Definition of_int (z : Z) : spec_float := binary_normalize prec emax z 0 false.

Definition mul (x y : spec_float) : spec_float := SFmul prec emax x y.

(** [int(x)]: truncation towards zero; infinities and NaN raise. *)
Definition int (x : spec_float) : result Z :=
  match x with
  | S754_zero _ => Ok 0
  | S754_finite s m e =>
      let a := if 0 <=? e then Zpos m * 2 ^ e else Zpos m / 2 ^ (- e) in
      Ok (if s then - a else a)
  | S754_infinity _ =>
      Raise (mk_exn "OverflowError" "cannot convert float infinity to integer")
  | S754_nan =>
      Raise (mk_exn "ValueError" "cannot convert float NaN to integer")
  end.

End PyFloat.

(** ** The process and its environment *)

(** The part of a completion the workflow reads:
    [response.choices[0].message.content]. *)
Record response := mk_response { content : string }.

(** What one call of [client.chat.completions.create] does: it returns a
    response or raises an [Exception]. *)
Inductive outcome :=
| Returned (r : response)
| Raised (e : exn).

(** The remote endpoint: the outcome of the n-th request the process sends,
    counted from 0. *)
Definition remote := nat -> outcome.

(** What the process does, in the order it does it.  Of the console output
    only the title line of each banner is kept; the report file is kept as
    its list of sections (title, text). *)
Inductive event :=
| EvBanner (title : string)
| EvRequest (system_prompt user_message : string)
| EvSleep (seconds : Z)
| EvStore (key value : string)
| EvReport (sections : list (string * string)).

(** [self.outputs] is a dict: an association list in insertion order. *)
Definition dict := list (string * string).

Record state := mk_state {
  outputs : dict;
  requests : nat;
  log : list event
}.

(** A computation may change the state and may raise. *)
Definition M (A : Type) := state -> result A * state.

Definition ret {A} (a : A) : M A := fun st => (Ok a, st).

Definition raise {A} (e : exn) : M A := fun st => (Raise e, st).

Definition bind {A B} (m : M A) (k : A -> M B) : M B :=
  fun st =>
    match m st with
    | (Ok a, st') => k a st'
    | (Raise e, st') => (Raise e, st')
    end.

Declare Scope py_scope.
Delimit Scope py_scope with py.
Notation "x <- m ;; k" := (bind m (fun x => k))
  (at level 100, m at next level, right associativity) : py_scope.
Notation "m ;; k" := (bind m (fun _ => k))
  (at level 100, right associativity) : py_scope.
Open Scope py_scope.

Definition emit (ev : event) : M unit :=
  fun st => (Ok tt, mk_state (outputs st) (requests st) (log st ++ [ev])).

(** ** The store *)

Fixpoint dict_get (k : string) (d : dict) : option string :=
  match d with
  | [] => None
  | (k', v) :: d' => if String.eqb k k' then Some v else dict_get k d'
  end.

(** [d[k] = v]: an existing key keeps its place and takes the new value, a
    new key goes to the end. *)
Fixpoint dict_set (k v : string) (d : dict) : dict :=
  match d with
  | [] => [(k, v)]
  | (k', v') :: d' =>
      if String.eqb k k' then (k, v) :: d' else (k', v') :: dict_set k v d'
  end.

Definition key_error (k : string) : exn :=
  mk_exn "KeyError" ("'" ++ k ++ "'").

(** [self.outputs[k]] *)
Definition lookup (k : string) : M string :=
  fun st =>
    match dict_get k (outputs st) with
    | Some v => (Ok v, st)
    | None => (Raise (key_error k), st)
    end.

(** [self.outputs[k] = v] *)
Definition store (k v : string) : M unit :=
  fun st =>
    (Ok tt, mk_state (dict_set k v (outputs st)) (requests st)
                     (log st ++ [EvStore k v])).

(** ** [_make_api_call] *)

(** The state once one more request has gone out. *)
Definition sent (system_prompt user_message : string) (st : state) : state :=
  mk_state (outputs st) (S (requests st))
           (log st ++ [EvRequest system_prompt user_message]).

(** [self.client.chat.completions.create(...)] with the two messages. *)
Definition create (env : remote) (system_prompt user_message : string)
  : state -> outcome * state :=
  fun st => (env (requests st), sent system_prompt user_message st).

(** [time.sleep(seconds)] for an int.  The interpreter checks the duration
    before it sleeps: it turns the seconds into nanoseconds held in a signed
    64-bit integer and raises OverflowError when they do not fit, then
    raises ValueError on a negative duration.  A duration that passes is
    slept; what the operating system may refuse is outside the model, as it
    is for [print] and for the writing of the report. *)
Definition sleep_overflow : exn :=
  mk_exn "OverflowError" "timestamp too large to convert to C _PyTime_t".

Definition sleep_negative : exn :=
  mk_exn "ValueError" "sleep length must be non-negative".

Definition sleep_check (seconds : Z) : option exn :=
  let ns := seconds * 1000000000 in
  if (ns <? - 2 ^ 63) || (2 ^ 63 - 1 <? ns) then Some sleep_overflow
  else if seconds <? 0 then Some sleep_negative
  else None.

Definition sleep (seconds : Z) : M unit :=
  fun st =>
    match sleep_check seconds with
    | Some e => (Raise e, st)
    | None =>
        (Ok tt,
         mk_state (outputs st) (requests st) (log st ++ [EvSleep seconds]))
    end.

(** The classification of a caught exception. *)
Definition is_rate_limit (e : exn) : bool :=
  let error_str := exc_msg e in
  let error_type := exc_type e in
  String.eqb error_type "RateLimitError"
  || contains "rate_limit" (lower error_str)
  || contains "rate limit" (lower error_str)
  || contains "429" error_str.

(** The wait time scraped from the message of a rate-limit error. *)
Definition wait_time (error_str : string) : result Z :=
  let wait_time := 60 in
  if contains "Please try again in" error_str then
    match re_search error_str with
    | Some (group1, unit) =>
        match PyFloat.float group1 with
        | Raise e => Raise e
        | Ok value =>
            if Ascii.eqb unit "s" then
              match PyFloat.int value with
              | Ok i => Ok (i + 5)
              | Raise e => Raise e
              end
            else if Ascii.eqb unit "m" then
              match PyFloat.int (PyFloat.mul value (PyFloat.of_int 60)) with
              | Ok i => Ok (i + 10)
              | Raise e => Raise e
              end
            else if Ascii.eqb unit "h" then
              match PyFloat.int (PyFloat.mul value (PyFloat.of_int 3600)) with
              | Ok i => Ok (i + 60)
              | Raise e => Raise e
              end
            else Ok wait_time
        end
    | None => Ok wait_time
    end
  else Ok wait_time.

(** [range(n)] *)
Definition range (n : Z) : list Z := map Z.of_nat (seq 0 (Z.to_nat n)).

(** The body of [for attempt in range(max_retries)], over the attempts that
    are left.  When the attempts run out the method ends without a [return]
    statement, that is, it returns [None]. *)
Fixpoint retry_loop (env : remote) (system_prompt user_message : string)
    (max_retries : Z) (attempts : list Z) : M (option response) :=
  match attempts with
  | [] => ret None
  | attempt :: rest =>
      fun st =>
        match create env system_prompt user_message st with
        | (Returned r, st1) => (Ok (Some r), st1)
        | (Raised e, st1) =>
            if is_rate_limit e then
              match wait_time (exc_msg e) with
              | Raise e' => (Raise e', st1)
              | Ok w =>
                  if attempt <? max_retries - 1 then
                    (sleep w ;;
                     retry_loop env system_prompt user_message max_retries
                                rest) st1
                  else (Raise e, st1)
              end
            else (Raise e, st1)
        end
  end.

Definition _make_api_call (env : remote) (system_prompt user_message : string)
    (max_retries : Z) : M (option response) :=
  retry_loop env system_prompt user_message max_retries (range max_retries).

(** ** The phases *)

Definition nl : string := String (ascii_of_nat 10) EmptyString.

(** [response.choices[0].message.content]; on [None] the attribute access
    raises. *)
Definition message_content (r : option response) : M string :=
  match r with
  | Some r => ret (content r)
  | None =>
      raise (mk_exn "AttributeError"
                    "'NoneType' object has no attribute 'choices'")
  end.

(** The default of the parameter [max_retries]. *)
Definition default_max_retries : Z := 3.

Definition phase_research (env : remote) : M unit :=
  emit (EvBanner "PHASE 1: MARKET RESEARCH") ;;
  let system_prompt :=
    "You are a market research analyst. Provide a brief analysis of" ++ nl ++
    "3 competitors in AI interview platforms (HireVue, Pymetrics, Codility)."
    ++ nl ++
    "List their key features and identify market gaps in 150 words." in
  let user_message :=
    "Analyze the current market for AI-powered interview platforms." in
  response <- _make_api_call env system_prompt user_message
                             default_max_retries ;;
  text <- message_content response ;;
  store "research" text.

Definition phase_analysis (env : remote) : M unit :=
  emit (EvBanner "PHASE 2: OPPORTUNITY ANALYSIS") ;;
  let system_prompt :=
    "You are a product analyst. Based on the market research provided," ++ nl ++
    "identify 3 key market opportunities or gaps for a new AI interview platform."
    ++ nl ++
    "Be concise in 150 words." in
  research <- lookup "research" ;;
  let user_message :=
    "Market research findings:" ++ nl ++
    research ++ nl ++
    nl ++
    "Now identify market opportunities and gaps." in
  response <- _make_api_call env system_prompt user_message
                             default_max_retries ;;
  text <- message_content response ;;
  store "analysis" text.

Definition phase_blueprint (env : remote) : M unit :=
  emit (EvBanner "PHASE 3: PRODUCT BLUEPRINT") ;;
  let system_prompt :=
    "You are a product designer. Based on the market analysis and opportunities,"
    ++ nl ++
    "create a brief product blueprint including:" ++ nl ++
    "- Key features (3-5)" ++ nl ++
    "- User journey (2-3 steps)" ++ nl ++
    "Keep it concise - 150 words." in
  analysis <- lookup "analysis" ;;
  let user_message :=
    "Market Analysis:" ++ nl ++
    analysis ++ nl ++
    nl ++
    "Create a product blueprint for our platform." in
  response <- _make_api_call env system_prompt user_message
                             default_max_retries ;;
  text <- message_content response ;;
  store "blueprint" text.

Definition phase_technical (env : remote) : M unit :=
  emit (EvBanner "PHASE 4: TECHNICAL ARCHITECTURE") ;;
  let system_prompt :=
    "You are a technical architect. Based on the product blueprint provided,"
    ++ nl ++
    "design a technical architecture including:" ++ nl ++
    "- Technology stack (frontend, backend, database)" ++ nl ++
    "- Key technical components and services" ++ nl ++
    "- Scalability and performance considerations" ++ nl ++
    "Keep it concise - 150 words." in
  blueprint <- lookup "blueprint" ;;
  let user_message :=
    "Product Blueprint:" ++ nl ++
    blueprint ++ nl ++
    nl ++
    "Design the technical architecture for this platform." in
  response <- _make_api_call env system_prompt user_message
                             default_max_retries ;;
  text <- message_content response ;;
  store "technical" text.

Definition phase_review (env : remote) : M unit :=
  emit (EvBanner "PHASE 5: STRATEGIC REVIEW") ;;
  let system_prompt :=
    "You are a product reviewer and strategist. Review the product blueprint"
    ++ nl ++
    "and technical architecture, then provide 3 strategic recommendations for success."
    ++ nl ++
    "Be concise - 150 words." in
  blueprint <- lookup "blueprint" ;;
  technical <- lookup "technical" ;;
  let user_message :=
    "Product Blueprint:" ++ nl ++
    blueprint ++ nl ++
    nl ++
    "Technical Architecture:" ++ nl ++
    technical ++ nl ++
    nl ++
    "Provide strategic review and recommendations." in
  response <- _make_api_call env system_prompt user_message
                             default_max_retries ;;
  text <- message_content response ;;
  store "review" text.

(** [print_summary]: the five outputs are printed, then written to the
    report file, each under its section title. *)
Definition print_summary : M unit :=
  emit (EvBanner "FINAL SUMMARY") ;;
  emit (EvBanner "FULL RESULTS - ALL PHASES") ;;
  research <- lookup "research" ;;
  analysis <- lookup "analysis" ;;
  blueprint <- lookup "blueprint" ;;
  technical <- lookup "technical" ;;
  review <- lookup "review" ;;
  emit (EvReport [("PHASE 1: MARKET RESEARCH", research);
                  ("PHASE 2: OPPORTUNITY ANALYSIS", analysis);
                  ("PHASE 3: PRODUCT BLUEPRINT", blueprint);
                  ("PHASE 4: TECHNICAL ARCHITECTURE", technical);
                  ("PHASE 5: STRATEGIC REVIEW", review)]).

Definition run (env : remote) : M unit :=
  emit (EvBanner "AUTOGEN INTERVIEW PLATFORM WORKFLOW - SIMPLIFIED DEMO") ;;
  phase_research env ;;
  phase_analysis env ;;
  phase_blueprint env ;;
  phase_technical env ;;
  phase_review env ;;
  print_summary.

(** The workflow object as [__init__] leaves it: [self.outputs = {}]. *)
Definition new_workflow : state := mk_state [] 0 [].


(** * The command line and the report file of
      [crewai/conference_planner.py] *)

Module Planner.

(** [s.replace(old, new)] for one-character [old] and [new]. *)
Fixpoint replace_char (old new : ascii) (s : string) : string :=
  match s with
  | EmptyString => EmptyString
  | String c t =>
      String (if Ascii.eqb c old then new else c) (replace_char old new t)
  end.

(** The name of the report file, from the topic. *)
Definition output_filename (conference_topic : string) : string :=
  "conference_plan_" ++ replace_char " " "_" (lower conference_topic)
  ++ ".txt".

(** The keyword arguments of [main]. *)
Record kwargs := mk_kwargs {
  conference_topic : string;
  conference_type : string;
  target_audience : string;
  location : string;
  conference_dates : string;
  duration : string;
  expected_attendees : Z
}.

(** The defaults in the signature of [main]. *)
Definition main_defaults : kwargs :=
  mk_kwargs "Artificial Intelligence in Healthcare"
            "professional development"
            "healthcare professionals and AI researchers"
            "San Francisco, CA"
            "March 15-17, 2026"
            "3-day"
            300.

(** The table the script starts from. *)
Definition default_kwargs : kwargs :=
  mk_kwargs "Artificial Intelligence in Healthcare"
            "professional development"
            "healthcare professionals and AI researchers"
            "San Francisco, CA"
            "March 15-17, 2026"
            "3-day"
            300.

(** [sys.argv[i]] when [len(sys.argv) > i], the old value otherwise. *)
Definition argv_or (argv : list string) (i : nat) (old : string) : string :=
  if (i <? List.length argv)%nat then nth i argv old else old.

(** The arguments the script passes to [main] for a command line. *)
Definition parse_argv (argv : list string) : kwargs :=
  let k := default_kwargs in
  mk_kwargs (argv_or argv 1 (conference_topic k))
            (conference_type k)
            (argv_or argv 4 (target_audience k))
            (argv_or argv 2 (location k))
            (argv_or argv 3 (conference_dates k))
            (duration k)
            (expected_attendees k).

End Planner.

(** * The vocabulary of the specification *)

(** ** Wait-time phrases *)

(** The message reads: [pre], the literal words, a non-empty token of digits
    and dots, a unit letter, [post]. *)
Definition phrase_at (pre tok : string) (u : ascii) (post s : string) : Prop :=
  s = pre ++ literal ++ tok ++ String u post
  /\ tok <> "" /\ all_chars value_class tok = true /\ unit_class u = true.

(** No wait-time phrase anywhere in the message. *)
Definition no_phrase (s : string) : Prop :=
  forall pre tok u post, ~ phrase_at pre tok u post s.

(** The leftmost wait-time phrase of the message has token [tok] and unit
    [u]. *)
Definition first_phrase (tok : string) (u : ascii) (s : string) : Prop :=
  exists pre post,
    phrase_at pre tok u post s
    /\ forall pre' tok' u' post',
         phrase_at pre' tok' u' post' s ->
         (String.length pre <= String.length pre')%nat.

(** The matches of the pattern at every place of the message, from left to
    right: token and unit. *)
Fixpoint matches (s : string) : list (string * ascii) :=
  (match match_here s with Some m => [m] | None => [] end
   ++ match s with
      | EmptyString => []
      | String _ t => matches t
      end)%list.

(** ** Substrings *)

(** The message contains the needle. *)
Definition substring_of (needle s : string) : Prop :=
  exists pre post, s = pre ++ needle ++ post.

(** The message contains the needle up to the case of letters: some
    substring of it and the needle have the same lower-case form. *)
Definition substring_nocase (needle s : string) : Prop :=
  exists pre mid post, s = pre ++ mid ++ post /\ lower mid = lower needle.

(** ** Numbers *)

(** The number a decimal token denotes, as an exact rational. *)
Definition decimal_value (tok : string) : option Q :=
  match PyFloat.parse_decimal tok with
  | Some (n, k) => Some (n # Z.to_pos (10 ^ Z.of_nat k))
  | None => None
  end.

(** The exact value of a finite binary64 number. *)
Definition float_value (x : spec_float) : option Q :=
  match x with
  | S754_zero _ => Some 0%Q
  | S754_finite s m e =>
      let a := if 0 <=? e then inject_Z (Zpos m * 2 ^ e)
               else Zpos m # Z.to_pos (2 ^ (- e)) in
      Some (if s then Qopp a else a)
  | _ => None
  end.

Definition nonnegative (x : spec_float) : Prop :=
  match x with
  | S754_zero _ => True
  | S754_finite s _ _ => s = false
  | S754_infinity s => s = false
  | S754_nan => True
  end.

(** The wait of the specification for a phrase of exact value [V]: the
    value in seconds, rounded down, plus the buffer of the unit. *)
Definition stated_wait (V : Q) (unit : ascii) : Z :=
  if Ascii.eqb unit "s" then Qfloor V + 5
  else if Ascii.eqb unit "m" then Qfloor (V * 60) + 10
  else Qfloor (V * 3600) + 60.

(** ** Events *)

(** The events of the network side of a call: requests and sleeps. *)
Definition call_event (ev : event) : Prop :=
  match ev with
  | EvRequest _ _ | EvSleep _ => True
  | _ => False
  end.

(** The store assignments of a log, in order. *)
Fixpoint stores (l : list event) : dict :=
  match l with
  | [] => []
  | EvStore k v :: l' => (k, v) :: stores l'
  | _ :: l' => stores l'
  end.

(** ** Phases *)

Definition run_title : string :=
  "AUTOGEN INTERVIEW PLATFORM WORKFLOW - SIMPLIFIED DEMO".

(** The declared phases in order: banner title, key in the store, method. *)
Definition phase_list (env : remote) : list (string * string * M unit) :=
  [("PHASE 1: MARKET RESEARCH", "research", phase_research env);
   ("PHASE 2: OPPORTUNITY ANALYSIS", "analysis", phase_analysis env);
   ("PHASE 3: PRODUCT BLUEPRINT", "blueprint", phase_blueprint env);
   ("PHASE 4: TECHNICAL ARCHITECTURE", "technical", phase_technical env);
   ("PHASE 5: STRATEGIC REVIEW", "review", phase_review env)].

Definition phase_keys : list string :=
  ["research"; "analysis"; "blueprint"; "technical"; "review"].

(** Computations one after the other, stopping at the first that raises. *)
Fixpoint seq_run (ps : list (M unit)) : M unit :=
  match ps with
  | [] => ret tt
  | p :: ps' => p ;; seq_run ps'
  end.

(** The start of [run]: its banner and the first [k] phases. *)
Definition run_upto (k : nat) (env : remote) : M unit :=
  emit (EvBanner run_title) ;;
  seq_run (map snd (firstn k (phase_list env))).

(** The phase ran to its end from [st] to [st']: banner, requests and
    sleeps, then one assignment to the store under its key. *)
Definition phase_completed (title key : string) (st st' : state) : Prop :=
  exists text evs,
    outputs st' = dict_set key text (outputs st)
    /\ log st' = (log st ++ EvBanner title :: evs ++ [EvStore key text])%list
    /\ Forall call_event evs.

(** The phase raised: banner, requests and sleeps, the store untouched. *)
Definition phase_failed (title : string) (st st' : state) : Prop :=
  outputs st' = outputs st
  /\ exists evs,
       log st' = (log st ++ EvBanner title :: evs)%list
       /\ Forall call_event evs.

(** The events the phases of [ps] can produce. *)
Definition phase_event (ps : list (string * string * M unit)) (ev : event)
  : Prop :=
  call_event ev
  \/ exists title key p,
       In (title, key, p) ps
       /\ (ev = EvBanner title \/ exists text, ev = EvStore key text).

(** ** Sample inputs *)

(** A remote that fails the request number [n] and answers the others. *)
Definition fails_at (n : nat) (e : exn) (r : response) : remote :=
  fun i => if Nat.eqb i n then Raised e else Returned r.

(** A rate-limit error whose hint has a token without a digit. *)
Definition dot_hint_error : exn :=
  mk_exn "RateLimitError" "Rate limit reached. Please try again in .s".

(** A remote that answers every request with the same outcome. *)
Definition always (o : outcome) : remote := fun _ => o.

(** A remote that fails the first request and answers the later ones. *)
Definition fails_once (e : exn) (r : response) : remote :=
  fun n => match n with O => Raised e | S _ => Returned r end.

(** A remote that answers every request with the same text. *)
Definition answers (text : string) : remote :=
  always (Returned (mk_response text)).

(** A rate-limit error without a hint, and an error of another kind. *)
Definition plain_rate_limit_error : exn :=
  mk_exn "RateLimitError" "Rate limit exceeded".

Definition connection_error : exn :=
  mk_exn "APIConnectionError" "Connection error.".

(** A remote whose second request, the one of the analysis phase, fails
    with an error of another kind. *)
Definition second_request_fails : remote :=
  fails_at 1 connection_error (mk_response "text").

(** [c * n] *)
Fixpoint replicate (n : nat) (c : ascii) : string :=
  match n with
  | O => EmptyString
  | S n' => String c (replicate n' c)
  end.

(** A rate-limit error whose hint has a token with two dots. *)
Definition unparseable_hint_error : exn :=
  mk_exn "RateLimitError" "Rate limit reached. Please try again in 1.2.3s".

(** A rate-limit error whose hint is more seconds than [sleep] accepts. *)
Definition long_wait_error : exn :=
  mk_exn "RateLimitError"
         "Rate limit reached. Please try again in 9999999999s".

(** A rate-limit error whose hint is 10^309 seconds, beyond the largest
    finite binary64 number. *)
Definition huge_hint_error : exn :=
  mk_exn "RateLimitError"
         ("Rate limit reached. Please try again in 1"
          ++ replicate 309 "0" ++ "s").

(** A rate-limit error with a hint in minutes with one decimal. *)
Definition decimal_hint_error : exn :=
  mk_exn "RateLimitError" "Rate limit reached. Please try again in 4.1m".

(** A rate-limit error with the compound hint of the comment in the code. *)
Definition compound_hint_error : exn :=
  mk_exn "RateLimitError"
         "Rate limit reached for model. Please try again in 3m23.04s.".

(** ** Calls *)

(** The events of one call that slept [ws] between its requests: request,
    sleep, request, sleep, ..., request. *)
Fixpoint call_trace (sp um : string) (ws : list Z) : list event :=
  match ws with
  | [] => [EvRequest sp um]
  | w :: ws' => EvRequest sp um :: EvSleep w :: call_trace sp um ws'
  end.

(** The requests number [n], [n+1], ... were answered by rate-limit errors
    whose computed waits are [ws], in order, and each wait is a duration
    that [sleep] accepts. *)
Fixpoint retried (env : remote) (n : nat) (ws : list Z) : Prop :=
  match ws with
  | [] => True
  | w :: ws' =>
      (exists e, env n = Raised e /\ is_rate_limit e = true
                 /\ wait_time (exc_msg e) = Ok w)
      /\ sleep_check w = None
      /\ retried env (S n) ws'
  end.

(** How a call ends on the outcome of its final request; [last] tells
    whether that request was the last attempt allowed.  A rate-limit error
    with a computed wait is raised at the last attempt; before the last
    attempt the call ends there only when [sleep] refuses the wait. *)
Definition ends_with (o : outcome) (last : bool)
    (res : result (option response)) : Prop :=
  match o with
  | Returned r => res = Ok (Some r)
  | Raised e =>
      if is_rate_limit e then
        match wait_time (exc_msg e) with
        | Raise e' => res = Raise e'
        | Ok w =>
            if last then res = Raise e
            else exists e', sleep_check w = Some e' /\ res = Raise e'
        end
      else res = Raise e
  end.

Fixpoint count_requests (l : list event) : nat :=
  match l with
  | [] => 0
  | EvRequest _ _ :: l' => S (count_requests l')
  | _ :: l' => count_requests l'
  end.

Fixpoint count_sleeps (l : list event) : nat :=
  match l with
  | [] => 0
  | EvSleep _ :: l' => S (count_sleeps l')
  | _ :: l' => count_sleeps l'
  end.

(** ** Decimal numerals *)

Fixpoint count_dots (s : string) : nat :=
  match s with
  | EmptyString => 0
  | String c t => (if Ascii.eqb c "." then 1 else 0) + count_dots t
  end.

Fixpoint has_digit (s : string) : bool :=
  match s with
  | EmptyString => false
  | String c t => is_digit c || has_digit t
  end.

(** A token of digits and dots that writes a number: at least one digit and
    at most one dot. *)
Definition decimal_numeral (tok : string) : bool :=
  has_digit tok && (count_dots tok <=? 1)%nat.

Definition overflow_error : exn :=
  mk_exn "OverflowError" "cannot convert float infinity to integer".

(** A float that is zero, finite or infinite, and not negative. *)
Definition plain_float (x : spec_float) : Prop :=
  match x with
  | S754_zero _ => True
  | S754_finite s _ _ => s = false
  | S754_infinity s => s = false
  | S754_nan => False
  end.

(** ** Prompts *)

Definition research_system : string :=
  "You are a market research analyst. Provide a brief analysis of" ++ nl ++
  "3 competitors in AI interview platforms (HireVue, Pymetrics, Codility)."
  ++ nl ++
  "List their key features and identify market gaps in 150 words.".

Definition research_user : string :=
  "Analyze the current market for AI-powered interview platforms.".

Definition analysis_system : string :=
  "You are a product analyst. Based on the market research provided," ++ nl ++
  "identify 3 key market opportunities or gaps for a new AI interview platform."
  ++ nl ++
  "Be concise in 150 words.".

Definition analysis_user (research : string) : string :=
  "Market research findings:" ++ nl ++
  research ++ nl ++
  nl ++
  "Now identify market opportunities and gaps.".

Definition blueprint_system : string :=
  "You are a product designer. Based on the market analysis and opportunities,"
  ++ nl ++
  "create a brief product blueprint including:" ++ nl ++
  "- Key features (3-5)" ++ nl ++
  "- User journey (2-3 steps)" ++ nl ++
  "Keep it concise - 150 words.".

Definition blueprint_user (analysis : string) : string :=
  "Market Analysis:" ++ nl ++
  analysis ++ nl ++
  nl ++
  "Create a product blueprint for our platform.".

Definition technical_system : string :=
  "You are a technical architect. Based on the product blueprint provided,"
  ++ nl ++
  "design a technical architecture including:" ++ nl ++
  "- Technology stack (frontend, backend, database)" ++ nl ++
  "- Key technical components and services" ++ nl ++
  "- Scalability and performance considerations" ++ nl ++
  "Keep it concise - 150 words.".

Definition technical_user (blueprint : string) : string :=
  "Product Blueprint:" ++ nl ++
  blueprint ++ nl ++
  nl ++
  "Design the technical architecture for this platform.".

Definition review_system : string :=
  "You are a product reviewer and strategist. Review the product blueprint"
  ++ nl ++
  "and technical architecture, then provide 3 strategic recommendations for success."
  ++ nl ++
  "Be concise - 150 words.".

Definition review_user (blueprint technical : string) : string :=
  "Product Blueprint:" ++ nl ++
  blueprint ++ nl ++
  nl ++
  "Technical Architecture:" ++ nl ++
  technical ++ nl ++
  nl ++
  "Provide strategic review and recommendations.".

(** ** Runs *)

(** From request number [n] on, a call with the default three attempts was
    retried with the waits [ws], each computed from a rate-limit error and
    accepted by [sleep], and then answered with the text [c]. *)
Definition answered (env : remote) (n : nat) (ws : list Z) (c : string)
  : Prop :=
  retried env n ws
  /\ (List.length ws <= 2)%nat
  /\ exists r, env (n + List.length ws)%nat = Returned r /\ content r = c.

(** The events of a phase that ran to its end. *)
Definition phase_log (title sp um : string) (ws : list Z) (key c : string)
  : list event :=
  (EvBanner title :: call_trace sp um ws ++ [EvStore key c])%list.

(** The first of the five keys that the store lacks. *)
Definition first_missing (d : dict) : option string :=
  find (fun k => match dict_get k d with Some _ => false | None => true end)
       phase_keys.

Definition get_or_empty (k : string) (d : dict) : string :=
  match dict_get k d with Some v => v | None => EmptyString end.

(** The sections [print_summary] writes from a store. *)
Definition report_sections (d : dict) : list (string * string) :=
  [("PHASE 1: MARKET RESEARCH", get_or_empty "research" d);
   ("PHASE 2: OPPORTUNITY ANALYSIS", get_or_empty "analysis" d);
   ("PHASE 3: PRODUCT BLUEPRINT", get_or_empty "blueprint" d);
   ("PHASE 4: TECHNICAL ARCHITECTURE", get_or_empty "technical" d);
   ("PHASE 5: STRATEGIC REVIEW", get_or_empty "review" d)].

Definition summary_banners : list event :=
  [EvBanner "FINAL SUMMARY"; EvBanner "FULL RESULTS - ALL PHASES"].

(** The seconds in one unit of a hint. *)
Definition unit_seconds (unit : ascii) : Z :=
  if Ascii.eqb unit "s" then 1
  else if Ascii.eqb unit "m" then 60
  else 3600.

(** The buffer added for a unit. *)
Definition unit_buffer (unit : ascii) : Z :=
  if Ascii.eqb unit "s" then 5
  else if Ascii.eqb unit "m" then 10
  else 60.


(** * Properties *)

(** ** Strings *)

Section StringFacts.

Lemma append_nil_r (s : string) : s ++ "" = s.
Proof. induction s; simpl; congruence. Qed.

Lemma append_assoc (a b c : string) : (a ++ b) ++ c = a ++ b ++ c.
Proof. induction a; simpl; congruence. Qed.

Lemma strip_prefix_spec (p s r : string) :
  strip_prefix p s = Some r <-> s = p ++ r.
Proof.
  revert s; induction p as [|a p IH]; intros s; simpl.
  - split; congruence.
  - destruct s as [|b s]; [split; discriminate|].
    destruct (Ascii.eqb_spec a b) as [->|Hne].
    + rewrite IH. split; congruence.
    + split; [discriminate | intros H; congruence].
Qed.

Lemma starts_with_spec (p s : string) :
  starts_with p s = true <-> exists r, s = p ++ r.
Proof.
  unfold starts_with. destruct (strip_prefix p s) as [r|] eqn:E.
  - apply strip_prefix_spec in E. split; eauto.
  - split; [discriminate|]. intros [r Hr].
    apply strip_prefix_spec in Hr. congruence.
Qed.

(** [needle in s] says that [s] is some text, the needle, some text. *)
Lemma contains_spec (needle s : string) :
  contains needle s = true <-> exists a b, s = a ++ needle ++ b.
Proof.
  induction s as [|c s IH]; simpl.
  - rewrite orb_false_r, starts_with_spec. split.
    + intros [r Hr]. exists "", r. exact Hr.
    + intros [a [b H]]. destruct a; [eauto | discriminate].
  - rewrite orb_true_iff, starts_with_spec, IH. split.
    + intros [[r Hr] | [a [b H]]].
      * exists "", r. exact Hr.
      * exists (String c a), b. simpl. congruence.
    + intros [a [b H]]. destruct a as [|c' a]; simpl in H.
      * left. eauto.
      * right. exists a, b. congruence.
Qed.

Lemma lower_append (a b : string) : lower (a ++ b) = lower a ++ lower b.
Proof. induction a; simpl; congruence. Qed.

(** A split of [lower s] comes from a split of [s]. *)
Lemma lower_split (s x y : string) :
  lower s = x ++ y ->
  exists a b, s = a ++ b /\ lower a = x /\ lower b = y.
Proof.
  revert s; induction x as [|c x IH]; intros s H; simpl in H.
  - exists "", s. auto.
  - destruct s as [|d s]; simpl in H; [discriminate|].
    injection H as Hc Hs. destruct (IH _ Hs) as [a [b [-> [Ha Hb]]]].
    exists (String d a), b. simpl. repeat split; congruence.
Qed.

Lemma span_append (p : ascii -> bool) (s : string) :
  fst (span p s) ++ snd (span p s) = s.
Proof.
  induction s as [|c s IH]; simpl; [reflexivity|].
  destruct (p c); [|reflexivity].
  destruct (span p s); simpl in *. congruence.
Qed.

Lemma span_all (p : ascii -> bool) (s : string) :
  all_chars p (fst (span p s)) = true.
Proof.
  induction s as [|c s IH]; simpl; [reflexivity|].
  destruct (p c) eqn:E; [|reflexivity].
  destruct (span p s); simpl in *. now rewrite E.
Qed.

(** A run of [p]-characters followed by a character outside [p] is what
    [span] cuts off. *)
Lemma span_run (p : ascii -> bool) (tok : string) (u : ascii) (post : string) :
  all_chars p tok = true -> p u = false ->
  span p (tok ++ String u post) = (tok, String u post).
Proof.
  intros Ht Hu. induction tok as [|c tok IH]; simpl in *.
  - now rewrite Hu.
  - apply andb_true_iff in Ht as [Hc Ht]. rewrite Hc, (IH Ht). reflexivity.
Qed.

End StringFacts.

(** ** The pattern *)

Section PatternFacts.

Lemma unit_not_value (u : ascii) : unit_class u = true -> value_class u = false.
Proof.
  unfold unit_class, value_class. intros H.
  repeat (apply orb_true_iff in H as [H|H]);
    apply Ascii.eqb_eq in H; subst; reflexivity.
Qed.

Lemma match_here_spec (s tok : string) (u : ascii) :
  match_here s = Some (tok, u) <->
  exists post, phrase_at "" tok u post s.
Proof.
  unfold match_here, phrase_at. cbn [append]. split.
  - destruct (strip_prefix literal s) as [rest|] eqn:E; [|discriminate].
    apply strip_prefix_spec in E.
    pose proof (span_append value_class rest) as Happ.
    pose proof (span_all value_class rest) as Hall.
    destruct (span value_class rest) as [t r]; simpl in *.
    destruct t as [|c t]; [discriminate|].
    destruct r as [|v r]; [discriminate|].
    destruct (unit_class v) eqn:Hv; [|discriminate].
    intros H; injection H as <- <-. exists r.
    repeat split; try assumption; try discriminate.
    rewrite E, <- Happ. reflexivity.
  - intros [post [-> [Hne [Hall Hu]]]].
    assert (E : strip_prefix literal (literal ++ tok ++ String u post)
                = Some (tok ++ String u post))
      by (apply strip_prefix_spec; reflexivity).
    rewrite E, (span_run _ _ _ _ Hall (unit_not_value _ Hu)).
    destruct tok; [congruence|]. now rewrite Hu.
Qed.

Lemma phrase_at_cons c pre tok u post s :
  phrase_at (String c pre) tok u post (String c s) <->
  phrase_at pre tok u post s.
Proof.
  unfold phrase_at; simpl. split; intros [H R]; split; try assumption;
    congruence.
Qed.

Lemma phrase_at_cons_inv pre tok u post c s :
  phrase_at pre tok u post (String c s) ->
  (pre = "" /\ match_here (String c s) = Some (tok, u))
  \/ exists pre', pre = String c pre' /\ phrase_at pre' tok u post s.
Proof.
  intros H. destruct pre as [|d pre].
  - left. split; [reflexivity|]. apply match_here_spec. eauto.
  - right. exists pre. destruct H as [H R]. simpl in H.
    injection H as -> H. split; [reflexivity|]. split; assumption.
Qed.

(** [re.search] finds nothing exactly when the message has no phrase. *)
Lemma re_search_None_iff (s : string) :
  re_search s = None <-> no_phrase s.
Proof.
  unfold no_phrase. induction s as [|c s IH]; simpl.
  - split.
    + intros _ pre tok u post [H _]. destruct pre; discriminate.
    + intros _. reflexivity.
  - destruct (match_here (String c s)) as [[t v]|] eqn:E.
    + split; [discriminate|]. intros H. exfalso.
      apply match_here_spec in E as [post Hp]. exact (H _ _ _ _ Hp).
    + rewrite IH. split.
      * intros H pre tok u post Hp.
        apply phrase_at_cons_inv in Hp as [[_ Hm] | [pre' [-> Hp]]].
        -- congruence.
        -- exact (H _ _ _ _ Hp).
      * intros H pre tok u post Hp.
        apply (H (String c pre) tok u post). now apply phrase_at_cons.
Qed.

(** [re.search] returns the groups of the leftmost phrase. *)
Lemma re_search_Some_iff (s tok : string) (u : ascii) :
  re_search s = Some (tok, u) <-> first_phrase tok u s.
Proof.
  unfold first_phrase. revert tok u. induction s as [|c s IH]; intros tok u.
  - simpl. split; [discriminate|].
    intros [pre [post [[H _] _]]]. destruct pre; discriminate.
  - simpl. destruct (match_here (String c s)) as [[t v]|] eqn:E.
    + split.
      * intros H; injection H as -> ->.
        apply match_here_spec in E as [post Hp].
        exists "", post. split; [exact Hp|]. intros; simpl; lia.
      * intros [pre [post [Hp Hmin]]].
        pose proof E as E'. apply match_here_spec in E' as [post0 Hp0].
        specialize (Hmin _ _ _ _ Hp0). simpl in Hmin.
        destruct pre; [|simpl in Hmin; lia].
        assert (match_here (String c s) = Some (tok, u))
          by (apply match_here_spec; eauto).
        congruence.
    + rewrite IH. split.
      * intros [pre [post [Hp Hmin]]].
        exists (String c pre), post. split; [now apply phrase_at_cons|].
        intros pre' tok' u' post' Hp'.
        apply phrase_at_cons_inv in Hp' as [[_ Hm] | [p' [-> Hp']]].
        -- congruence.
        -- specialize (Hmin _ _ _ _ Hp'). simpl. lia.
      * intros [pre [post [Hp Hmin]]].
        apply phrase_at_cons_inv in Hp as [[_ Hm] | [p' [-> Hp]]].
        -- congruence.
        -- exists p', post. split; [exact Hp|].
           intros pre' tok' u' post' Hp'.
           assert (Hc : phrase_at (String c pre') tok' u' post' (String c s))
             by now apply phrase_at_cons.
           specialize (Hmin _ _ _ _ Hc). simpl in Hmin. lia.
Qed.

(** A message with a phrase contains the words the handler tests for. *)
Lemma phrase_contains_words pre tok u post s :
  phrase_at pre tok u post s -> contains "Please try again in" s = true.
Proof.
  intros [-> _]. apply contains_spec.
  exists pre, (" " ++ tok ++ String u post). reflexivity.
Qed.

End PatternFacts.

(** ** The retry loop *)

Section RetryLoop.

Variable env : remote.
Variables sp um : string.
Variable max_retries : Z.

(** One pass of the loop, by the outcome of the request. *)
Lemma loop_returned attempt rest st r :
  env (requests st) = Returned r ->
  retry_loop env sp um max_retries (attempt :: rest) st
  = (Ok (Some r), sent sp um st).
Proof. intros H. simpl. unfold create. now rewrite H. Qed.

Lemma loop_other_error attempt rest st e :
  env (requests st) = Raised e -> is_rate_limit e = false ->
  retry_loop env sp um max_retries (attempt :: rest) st
  = (Raise e, sent sp um st).
Proof. intros H Hc. simpl. unfold create. now rewrite H, Hc. Qed.

Lemma loop_rate_limit_retry attempt rest st e w :
  env (requests st) = Raised e -> is_rate_limit e = true ->
  wait_time (exc_msg e) = Ok w -> attempt < max_retries - 1 ->
  retry_loop env sp um max_retries (attempt :: rest) st
  = (sleep w ;; retry_loop env sp um max_retries rest) (sent sp um st).
Proof.
  intros H Hc Hw Hlt. simpl. unfold create.
  rewrite H, Hc, Hw. apply Z.ltb_lt in Hlt. now rewrite Hlt.
Qed.

(** A wait that [sleep] accepts is slept and the loop goes on; a wait it
    refuses ends the call with the exception of [sleep]. *)
Lemma sleep_accepted {A} w (k : M A) st :
  sleep_check w = None ->
  (sleep w ;; k) st
  = k (mk_state (outputs st) (requests st) (log st ++ [EvSleep w])).
Proof. intros H. unfold bind, sleep. now rewrite H. Qed.

Lemma sleep_refused {A} w e (k : M A) st :
  sleep_check w = Some e -> (sleep w ;; k) st = (Raise e, st).
Proof. intros H. unfold bind, sleep. now rewrite H. Qed.



Lemma loop_rate_limit_last attempt rest st e w :
  env (requests st) = Raised e -> is_rate_limit e = true ->
  wait_time (exc_msg e) = Ok w -> max_retries - 1 <= attempt ->
  retry_loop env sp um max_retries (attempt :: rest) st
  = (Raise e, sent sp um st).
Proof.
  intros H Hc Hw Hge. simpl. unfold create.
  rewrite H, Hc, Hw. apply Z.ltb_ge in Hge. now rewrite Hge.
Qed.

(** The wait time is computed before the attempts left are counted: when
    its computation raises, that exception leaves the handler. *)
Lemma loop_rate_limit_unreadable attempt rest st e e' :
  env (requests st) = Raised e -> is_rate_limit e = true ->
  wait_time (exc_msg e) = Raise e' ->
  retry_loop env sp um max_retries (attempt :: rest) st
  = (Raise e', sent sp um st).
Proof. intros H Hc Hw. simpl. unfold create. now rewrite H, Hc, Hw. Qed.

End RetryLoop.

Lemma range_pos (n : Z) : 0 < n -> exists rest, range n = 0 :: rest.
Proof.
  intros H. unfold range. destruct (Z.to_nat n) as [|m] eqn:E; [lia|].
  simpl. eauto.
Qed.

Lemma range_3 : range 3 = [0; 1; 2].
Proof. reflexivity. Qed.

(** With three attempts and a rate-limit error on each of them, with waits
    that can be computed and that [sleep] accepts, the call makes three
    requests, sleeps after the first and after the second, and raises the
    third error. *)
Lemma rate_limit_exhaustion env sp um st e0 e1 e2 w0 w1 w2 :
  env (requests st) = Raised e0 ->
  env (S (requests st)) = Raised e1 ->
  env (S (S (requests st))) = Raised e2 ->
  is_rate_limit e0 = true -> is_rate_limit e1 = true ->
  is_rate_limit e2 = true ->
  wait_time (exc_msg e0) = Ok w0 -> wait_time (exc_msg e1) = Ok w1 ->
  wait_time (exc_msg e2) = Ok w2 ->
  sleep_check w0 = None -> sleep_check w1 = None ->
  _make_api_call env sp um 3 st
  = (Raise e2,
     mk_state (outputs st) (3 + requests st)
       (log st ++ [EvRequest sp um; EvSleep w0; EvRequest sp um; EvSleep w1;
                   EvRequest sp um])).
Proof.
  intros H0 H1 H2 C0 C1 C2 W0 W1 W2 S0 S1.
  unfold _make_api_call. rewrite range_3.
  rewrite (loop_rate_limit_retry _ _ _ _ _ _ _ e0 w0) by (auto; lia).
  rewrite (sleep_accepted _ _ _ S0).
  rewrite (loop_rate_limit_retry _ _ _ _ _ _ _ e1 w1) by (auto; lia).
  rewrite (sleep_accepted _ _ _ S1).
  rewrite (loop_rate_limit_last _ _ _ _ _ _ _ e2 w2) by (auto; lia).
  unfold sent; simpl. rewrite <- !app_assoc. reflexivity.
Qed.

(** ** Classification *)

Lemma contains_lower_nocase (needle s : string) :
  lower needle = needle ->
  contains needle (lower s) = true <-> substring_nocase needle s.
Proof.
  intros Hn. rewrite contains_spec. unfold substring_nocase. split.
  - intros [a [b H]].
    apply lower_split in H as [pre [r [-> [_ Hr]]]].
    apply lower_split in Hr as [mid [post [-> [Hm _]]]].
    exists pre, mid, post. split; congruence.
  - intros [pre [mid [post [-> Hm]]]].
    exists (lower pre), (lower post).
    rewrite !lower_append. congruence.
Qed.

(** C5. A caught error is classified as a rate-limit error if and only if
    its type name is RateLimitError, or its message contains rate_limit or
    rate limit in any mix of upper and lower case, or its message contains
    429; every other error is classified as not a rate-limit error. *)
Theorem is_rate_limit_iff (e : exn) :
  (is_rate_limit e = true <->
     exc_type e = "RateLimitError"
     \/ substring_nocase "rate_limit" (exc_msg e)
     \/ substring_nocase "rate limit" (exc_msg e)
     \/ substring_of "429" (exc_msg e))
  /\ (is_rate_limit e = false <->
        ~ (exc_type e = "RateLimitError"
           \/ substring_nocase "rate_limit" (exc_msg e)
           \/ substring_nocase "rate limit" (exc_msg e)
           \/ substring_of "429" (exc_msg e))).
Proof.
  assert (H : is_rate_limit e = true <->
     exc_type e = "RateLimitError"
     \/ substring_nocase "rate_limit" (exc_msg e)
     \/ substring_nocase "rate limit" (exc_msg e)
     \/ substring_of "429" (exc_msg e)).
  { unfold is_rate_limit. rewrite !orb_true_iff, String.eqb_eq.
    rewrite !contains_lower_nocase by reflexivity.
    unfold substring_of. rewrite contains_spec. tauto. }
  split; [exact H|].
  rewrite <- H. destruct (is_rate_limit e); split; congruence.
Qed.

(** ** What the handler does with an error *)

(** C2. When the remote call raises an error that is not classified as a
    rate-limit error, at whichever pass of the loop, the call raises that
    error at once: the state it leaves is the state right after the request,
    with no sleep and no further request.  When this happens at the first
    request of a call with at least one attempt, the call has made exactly
    one request. *)
Theorem non_rate_limit_error_propagates
    (env : remote) (sp um : string) (max_retries : Z) (st : state) (e : exn) :
  env (requests st) = Raised e ->
  is_rate_limit e = false ->
  (forall attempt rest,
      retry_loop env sp um max_retries (attempt :: rest) st
      = (Raise e, sent sp um st))
  /\ (0 < max_retries ->
      _make_api_call env sp um max_retries st
      = (Raise e,
         mk_state (outputs st) (1 + requests st)
                  (log st ++ [EvRequest sp um]))).
Proof.
  intros He Hc. split.
  - intros attempt rest. now apply loop_other_error.
  - intros Hpos. unfold _make_api_call.
    destruct (range_pos _ Hpos) as [rest ->].
    now apply loop_other_error.
Qed.

Lemma non_rate_limit_error_propagates_witness :
  always (Raised connection_error) (requests new_workflow)
    = Raised connection_error
  /\ is_rate_limit connection_error = false
  /\ _make_api_call (always (Raised connection_error)) "system" "user" 3
                    new_workflow
     = (Raise connection_error, mk_state [] 1 [EvRequest "system" "user"]).
Proof.
  split; [reflexivity|]. split; [reflexivity|].
  apply (non_rate_limit_error_propagates
           (always (Raised connection_error)) "system" "user" 3 new_workflow
           connection_error); [reflexivity | reflexivity | lia].
Defined.

(** C9. Called with [max_retries] zero or negative, the call sends no
    request, raises nothing and returns [None], leaving the state as it
    was. *)
Theorem no_attempts_returns_None
    (env : remote) (sp um : string) (max_retries : Z) (st : state) :
  max_retries <= 0 ->
  _make_api_call env sp um max_retries st = (Ok None, st).
Proof.
  intros H. unfold _make_api_call, range.
  replace (Z.to_nat max_retries) with 0%nat by lia. reflexivity.
Qed.

Lemma no_attempts_returns_None_witness :
  0 <= 0
  /\ _make_api_call (always (Raised connection_error)) "system" "user" 0
                    new_workflow
     = (Ok None, new_workflow).
Proof.
  split; [lia|].
  apply (no_attempts_returns_None
           (always (Raised connection_error)) "system" "user" 0 new_workflow).
  lia.
Defined.

(** ** The wait time *)

(** For a rate-limit error whose message the pattern does not match
    anywhere (no words Please try again in followed by a token of digits
    and dots and a unit letter s, m or h), the computed wait is 60 seconds,
    and 60 seconds is what the loop sleeps before the next attempt. *)
Lemma default_wait_without_phrase (e : exn) :
  no_phrase (exc_msg e) ->
  wait_time (exc_msg e) = Ok 60
  /\ forall env sp um max_retries attempt rest st,
       is_rate_limit e = true ->
       env (requests st) = Raised e ->
       attempt < max_retries - 1 ->
       retry_loop env sp um max_retries (attempt :: rest) st
       = retry_loop env sp um max_retries rest
           (mk_state (outputs st) (S (requests st))
                     (log st ++ [EvRequest sp um; EvSleep 60])).
Proof.
  intros Hno.
  assert (Hw : wait_time (exc_msg e) = Ok 60).
  { unfold wait_time. apply re_search_None_iff in Hno. rewrite Hno.
    now destruct (contains _ _). }
  split; [exact Hw|]. intros.
  rewrite loop_rate_limit_retry with (e := e) (w := 60) by assumption.
  rewrite sleep_accepted by reflexivity.
  unfold sent. cbn [outputs requests log]. now rewrite <- app_assoc.
Qed.

(** Every phrase of a message is among the matches of the pattern. *)
Lemma phrase_in_matches (s : string) :
  forall pre tok u post,
    phrase_at pre tok u post s -> In (tok, u) (matches s).
Proof.
  induction s as [|c s IH]; intros pre tok u post H.
  - destruct H as [H _]. destruct pre; discriminate.
  - cbn [matches]. apply in_or_app.
    apply phrase_at_cons_inv in H as [[_ Hm] | [pre' [_ H]]].
    + left. rewrite Hm. now left.
    + right. exact (IH _ _ _ _ H).
Qed.

(** C4, at an input where the code departs from it.  The message Rate limit
    reached. Please try again in 1.2.3s has no wait-time phrase that can be
    parsed: its one hint has the token 1.2.3, which writes no number.  The
    computed wait is not 60 seconds: the computation raises the ValueError
    of the float conversion, and a call whose request fails with this error
    raises the ValueError right after the request, without sleeping. *)
Theorem unparseable_hint_no_default (sp um : string) (st : state) :
  is_rate_limit unparseable_hint_error = true
  /\ (forall pre tok u post,
        phrase_at pre tok u post (exc_msg unparseable_hint_error) ->
        tok = "1.2.3" /\ decimal_value tok = None)
  /\ wait_time (exc_msg unparseable_hint_error)
     = Raise (PyFloat.value_error "1.2.3")
  /\ wait_time (exc_msg unparseable_hint_error) <> Ok 60
  /\ _make_api_call (always (Raised unparseable_hint_error)) sp um 3 st
     = (Raise (PyFloat.value_error "1.2.3"),
        mk_state (outputs st) (1 + requests st)
                 (log st ++ [EvRequest sp um])).
Proof.
  assert (Hw : wait_time (exc_msg unparseable_hint_error)
               = Raise (PyFloat.value_error "1.2.3")) by reflexivity.
  split; [reflexivity|]. split; [|split; [exact Hw|split]].
  - intros pre tok u post H. apply phrase_in_matches in H.
    cbv in H. destruct H as [H|[]]. injection H as <- _.
    split; reflexivity.
  - rewrite Hw. discriminate.
  - unfold _make_api_call. rewrite range_3.
    now apply loop_rate_limit_unreadable
      with (e := unparseable_hint_error).
Qed.

(** A token of digits and dots without a digit is not a number for
    [float]. *)
Lemma float_without_digit (tok : string) :
  all_chars value_class tok = true ->
  all_chars (fun c => negb (is_digit c)) tok = true ->
  PyFloat.float tok = Raise (PyFloat.value_error tok).
Proof.
  intros Hv Hd. unfold PyFloat.float, PyFloat.parse_decimal.
  destruct tok as [|c tok]; [reflexivity|].
  simpl in Hv, Hd. apply andb_true_iff in Hv as [Hc Hv].
  apply andb_true_iff in Hd as [Hnc Hd].
  apply negb_true_iff in Hnc. simpl. rewrite Hnc.
  unfold value_class in Hc. rewrite Hnc in Hc. simpl in Hc. rewrite Hc.
  destruct tok as [|d tok]; [reflexivity|].
  simpl in Hd. apply andb_true_iff in Hd as [Hnd _].
  apply negb_true_iff in Hnd. simpl. now rewrite Hnd.
Qed.

(** C10. There is a rate-limit error, with the message Rate limit reached.
    Please try again in .s, for which the pattern captures a token without a
    digit and the wait-time computation raises the ValueError of the float
    conversion instead of giving 60 seconds; the call raises that ValueError
    right after the request. *)
Theorem digitless_hint_raises_ValueError :
  exists (e : exn) (tok : string) (u : ascii),
    is_rate_limit e = true
    /\ contains "Please try again in" (exc_msg e) = true
    /\ re_search (exc_msg e) = Some (tok, u)
    /\ all_chars (fun c => negb (is_digit c)) tok = true
    /\ wait_time (exc_msg e) = Raise (PyFloat.value_error tok)
    /\ exc_type (PyFloat.value_error tok) = "ValueError"
    /\ wait_time (exc_msg e) <> Ok 60
    /\ forall env sp um max_retries st,
         0 < max_retries ->
         env (requests st) = Raised e ->
         _make_api_call env sp um max_retries st
         = (Raise (PyFloat.value_error tok), sent sp um st).
Proof.
  exists dot_hint_error, ".", "s"%char.
  assert (Hw : wait_time (exc_msg dot_hint_error)
               = Raise (PyFloat.value_error ".")) by reflexivity.
  repeat split; try reflexivity.
  - rewrite Hw. discriminate.
  - intros env sp um mr st Hpos He. unfold _make_api_call.
    destruct (range_pos _ Hpos) as [rest ->].
    now apply loop_rate_limit_unreadable with (e := dot_hint_error).
Qed.

(** C3, at the input where the code departs from it.  With three attempts
    and the error RateLimitError: Rate limit reached. Please try again in .s
    raised on every attempt, the call makes one request, does not sleep, and
    raises a ValueError, not the rate-limit error. *)
Theorem dot_hint_stops_retry (sp um : string) (st : state) :
  is_rate_limit dot_hint_error = true
  /\ _make_api_call (always (Raised dot_hint_error)) sp um 3 st
     = (Raise (PyFloat.value_error "."),
        mk_state (outputs st) (1 + requests st)
                 (log st ++ [EvRequest sp um])).
Proof.
  split; [reflexivity|].
  unfold _make_api_call. rewrite range_3.
  now apply loop_rate_limit_unreadable with (e := dot_hint_error).
Qed.

(** C1, at its input.  For the message Rate limit reached for model. Please
    try again in 3m23.04s. the pattern captures 3 and m only, and the
    computed wait is 3*60+10 = 190 seconds, not 203: a call whose first
    request fails with this error sleeps 190 seconds before the second. *)
Theorem compound_hint_wait (sp um : string) (r : response) :
  re_search (exc_msg compound_hint_error) = Some ("3", "m"%char)
  /\ wait_time (exc_msg compound_hint_error) = Ok 190
  /\ _make_api_call (fails_once compound_hint_error r) sp um 3 new_workflow
     = (Ok (Some r),
        mk_state [] 2 [EvRequest sp um; EvSleep 190; EvRequest sp um]).
Proof.
  split; [reflexivity|]. split; [reflexivity|].
  unfold _make_api_call. rewrite range_3.
  rewrite (loop_rate_limit_retry _ _ _ _ _ _ _ compound_hint_error 190)
    by (reflexivity || lia).
  rewrite sleep_accepted by reflexivity.
  now rewrite (loop_returned _ _ _ _ _ _ _ r).
Qed.

(** ** The wait time and binary64 arithmetic *)

Section FloatFacts.

Lemma binary_round_aux_nonnegative (m e : Z) (l : location) :
  nonnegative (binary_round_aux PyFloat.prec PyFloat.emax false m e l).
Proof.
  unfold binary_round_aux.
  destruct (shr_fexp _ _ m e l) as [mrs e'].
  destruct (shr_fexp _ _ _ e' loc_Exact) as [mrs' e''].
  destruct (shr_m mrs'); simpl; auto.
  destruct (Z.leb _ _); simpl; auto.
Qed.

Lemma float_nonnegative (tok : string) (v : spec_float) :
  PyFloat.float tok = Ok v -> nonnegative v.
Proof.
  unfold PyFloat.float. destruct (PyFloat.parse_decimal tok) as [[n k]|];
    [|discriminate].
  destruct n; intros H; injection H as <-; simpl; auto.
  unfold PyFloat.round_ratio.
  destruct (SFdiv_core_binary _ _ _ _ _ _) as [[q e] l].
  apply binary_round_aux_nonnegative.
Qed.

Lemma mul_nonnegative (x y : spec_float) :
  nonnegative x -> nonnegative y -> nonnegative (PyFloat.mul x y).
Proof.
  unfold PyFloat.mul.
  destruct x as [sx|sx| |sx mx ex], y as [sy|sy| |sy my ey]; simpl;
    intros Hx Hy; subst; auto.
  apply binary_round_aux_nonnegative.
Qed.

(** On a non-negative finite float, [int] is the floor of its value. *)
Lemma int_is_floor (x : spec_float) (q : Q) :
  nonnegative x -> float_value x = Some q ->
  PyFloat.int x = Ok (Qfloor q).
Proof.
  destruct x as [s|s| |s m e]; simpl; try discriminate.
  - intros _ H; injection H as <-. reflexivity.
  - intros -> H; injection H as <-.
    destruct (0 <=? e) eqn:E.
    + now rewrite Qfloor_Z.
    + apply Z.leb_gt in E. simpl.
      rewrite Z2Pos.id by (apply Z.pow_pos_nonneg; lia). reflexivity.
Qed.

End FloatFacts.

(** On a message with a phrase, the handler works from the leftmost one. *)
Lemma wait_time_first_phrase (msg tok : string) (u : ascii) :
  first_phrase tok u msg ->
  wait_time msg =
    match PyFloat.float tok with
    | Raise e => Raise e
    | Ok value =>
        if Ascii.eqb u "s" then
          match PyFloat.int value with
          | Ok i => Ok (i + 5)
          | Raise e => Raise e
          end
        else if Ascii.eqb u "m" then
          match PyFloat.int (PyFloat.mul value (PyFloat.of_int 60)) with
          | Ok i => Ok (i + 10)
          | Raise e => Raise e
          end
        else
          match PyFloat.int (PyFloat.mul value (PyFloat.of_int 3600)) with
          | Ok i => Ok (i + 60)
          | Raise e => Raise e
          end
    end.
Proof.
  intros H. pose proof H as [pre [post [Hp _]]].
  unfold wait_time. rewrite (phrase_contains_words _ _ _ _ _ Hp).
  apply re_search_Some_iff in H. rewrite H.
  destruct (PyFloat.float tok); [|reflexivity].
  destruct Hp as [_ [_ [_ Hu]]]. unfold unit_class in Hu.
  destruct (Ascii.eqb u "s"); [reflexivity|].
  destruct (Ascii.eqb u "m"); [reflexivity|].
  destruct (Ascii.eqb u "h"); [reflexivity|discriminate].
Qed.

(** C6, as the code has it.  When the leftmost wait-time phrase of the
    message has a token that [float] reads as the binary64 number [v], the
    computed wait is the floor of [v] plus 5 for the unit s, the floor of the
    binary64 product of [v] and 60 plus 10 for the unit m, and the floor of
    the binary64 product of [v] and 3600 plus 60 for the unit h, whenever
    that float is finite. *)
Theorem wait_of_first_phrase (msg tok : string) (u : ascii) (v : spec_float) :
  first_phrase tok u msg ->
  PyFloat.float tok = Ok v ->
  (u = "s"%char -> forall q,
      float_value v = Some q -> wait_time msg = Ok (Qfloor q + 5))
  /\ (u = "m"%char -> forall q,
      float_value (PyFloat.mul v (PyFloat.of_int 60)) = Some q ->
      wait_time msg = Ok (Qfloor q + 10))
  /\ (u = "h"%char -> forall q,
      float_value (PyFloat.mul v (PyFloat.of_int 3600)) = Some q ->
      wait_time msg = Ok (Qfloor q + 60)).
Proof.
  intros Hf Hv. pose proof (float_nonnegative _ _ Hv) as Hn.
  rewrite (wait_time_first_phrase _ _ _ Hf), Hv.
  repeat split; intros -> q Hq; simpl.
  - now rewrite (int_is_floor _ _ Hn Hq).
  - rewrite (int_is_floor _ q); auto.
    apply mul_nonnegative; [exact Hn | reflexivity].
  - rewrite (int_is_floor _ q); auto.
    apply mul_nonnegative; [exact Hn | reflexivity].
Qed.

(** The float model at work: what [float] reads, what it refuses, and a hint
    too large for a finite float, on which [int] raises. *)
Example float_reads_decimals :
  PyFloat.float "3" = Ok (S754_finite false 6755399441055744 (-51))
  /\ PyFloat.float "3." = PyFloat.float "3"
  /\ PyFloat.float ".5" = Ok (S754_finite false 4503599627370496 (-53))
  /\ PyFloat.float "0.1" = Ok (S754_finite false 7205759403792794 (-56))
  /\ PyFloat.float "1.2.3" = Raise (PyFloat.value_error "1.2.3").
Proof. repeat split; reflexivity. Qed.

Example huge_hint_overflows :
  is_rate_limit huge_hint_error = true
  /\ wait_time (exc_msg huge_hint_error)
     = Raise (mk_exn "OverflowError"
                     "cannot convert float infinity to integer").
Proof. split; vm_compute; reflexivity. Qed.

Lemma wait_of_first_phrase_witness :
  first_phrase "4.1" "m" (exc_msg decimal_hint_error)
  /\ PyFloat.float "4.1" = Ok (S754_finite false 4616189618054758 (-50))
  /\ wait_time (exc_msg decimal_hint_error) = Ok 255.
Proof.
  assert (Hf : first_phrase "4.1" "m" (exc_msg decimal_hint_error))
    by (apply re_search_Some_iff; reflexivity).
  assert (Hv : PyFloat.float "4.1"
               = Ok (S754_finite false 4616189618054758 (-50)))
    by reflexivity.
  split; [exact Hf|]. split; [exact Hv|].
  exact (proj1 (proj2 (wait_of_first_phrase _ _ _ _ Hf Hv))
               eq_refl _ eq_refl).
Defined.

(** C6, as stated, fails for the hint 4.1m: the value is 4.1 minutes, 246
    seconds, so the stated wait is 256; the binary64 number nearest to 4.1
    is below 4.1, its product with 60 is below 246, and the computed wait is
    255. *)
Lemma stated_wait_fails_for_decimal_minutes :
  first_phrase "4.1" "m" (exc_msg decimal_hint_error)
  /\ decimal_value "4.1" = Some (41 # 10)
  /\ stated_wait (41 # 10) "m" = 256
  /\ wait_time (exc_msg decimal_hint_error) = Ok 255
  /\ wait_time (exc_msg decimal_hint_error) <> Ok (stated_wait (41 # 10) "m").
Proof.
  split; [apply re_search_Some_iff; reflexivity|].
  repeat split; try reflexivity.
  vm_compute. discriminate.
Qed.

(** ** The phase chain *)

Lemma retry_loop_frame env sp um max_retries attempts :
  forall st res st',
    retry_loop env sp um max_retries attempts st = (res, st') ->
    outputs st' = outputs st
    /\ exists evs, log st' = (log st ++ evs)%list /\ Forall call_event evs.
Proof.
  induction attempts as [|attempt rest IH]; intros st res st' H; simpl in H.
  - injection H as _ <-. split; [reflexivity|].
    exists []. now rewrite app_nil_r.
  - assert (Hone : outputs (sent sp um st) = outputs st
              /\ exists evs, log (sent sp um st) = (log st ++ evs)%list
                             /\ Forall call_event evs).
    { split; [reflexivity|]. exists [EvRequest sp um]. split; [reflexivity|].
      repeat constructor. }
    unfold create in H. destruct (env (requests st)) as [r|e].
    + now injection H as _ <-.
    + destruct (is_rate_limit e); [|now injection H as _ <-].
      destruct (wait_time (exc_msg e)) as [w|e']; [|now injection H as _ <-].
      destruct (attempt <? max_retries - 1); [|now injection H as _ <-].
      destruct (sleep_check w) as [e'|] eqn:Hs.
      { rewrite (sleep_refused _ _ _ _ Hs) in H. now injection H as _ <-. }
      rewrite (sleep_accepted _ _ _ Hs) in H.
      apply IH in H as [Ho [evs [Hl Hev]]]. split; [exact Ho|].
      exists (EvRequest sp um :: EvSleep w :: evs). split.
      * rewrite Hl. unfold sent; simpl. now rewrite <- !app_assoc.
      * repeat constructor. exact Hev.
Qed.

Lemma make_api_call_frame env sp um max_retries st res st' :
  _make_api_call env sp um max_retries st = (res, st') ->
  outputs st' = outputs st
  /\ exists evs, log st' = (log st ++ evs)%list /\ Forall call_event evs.
Proof. apply retry_loop_frame. Qed.

(** What is left of a phase once its prompts are built: the call, the
    reading of the answer, the assignment. *)
Lemma phase_tail_cases env sp um title key st0 st res st' :
  outputs st = outputs st0 ->
  log st = (log st0 ++ [EvBanner title])%list ->
  (response <- _make_api_call env sp um default_max_retries ;;
   text <- message_content response ;;
   store key text) st = (res, st') ->
  (res = Ok tt /\ phase_completed title key st0 st')
  \/ (exists e, res = Raise e /\ phase_failed title st0 st').
Proof.
  intros Ho Hl H. unfold bind in H.
  destruct (_make_api_call env sp um default_max_retries st) as [[r|e] st1]
    eqn:E;
    apply make_api_call_frame in E as [Ho1 [evs [Hl1 Hev]]].
  - destruct r as [r|]; simpl in H.
    + injection H as <- <-. left. split; [reflexivity|].
      exists (content r), evs. simpl. rewrite Ho1, Ho, Hl1, Hl.
      rewrite <- !app_assoc. auto.
    + injection H as <- <-. right. eexists. split; [reflexivity|].
      split; [congruence|]. exists evs. rewrite Hl1, Hl.
      rewrite <- app_assoc. auto.
  - injection H as <- <-. right. eexists. split; [reflexivity|].
    split; [congruence|]. exists evs. rewrite Hl1, Hl.
    rewrite <- app_assoc. auto.
Qed.

Lemma phase_failed_at_lookup title st0 :
  phase_failed title st0
    (mk_state (outputs st0) (requests st0) (log st0 ++ [EvBanner title])).
Proof. split; [reflexivity|]. exists []. auto. Qed.

Lemma bind_emit {A} (ev : event) (k : M A) (st : state) :
  (emit ev ;; k) st
  = k (mk_state (outputs st) (requests st) (log st ++ [ev])).
Proof. reflexivity. Qed.

Lemma bind_lookup {A} (key : string) (k : string -> M A) (st : state) :
  (v <- lookup key ;; k v) st
  = match dict_get key (outputs st) with
    | Some v => k v st
    | None => (Raise (key_error key), st)
    end.
Proof. unfold bind, lookup. now destruct (dict_get key (outputs st)). Qed.

(** Each phase either runs to its end or raises. *)
Lemma phase_cases env title key p st res st' :
  In (title, key, p) (phase_list env) ->
  p st = (res, st') ->
  (res = Ok tt /\ phase_completed title key st st')
  \/ (exists e, res = Raise e /\ phase_failed title st st').
Proof.
  intros Hin H. unfold phase_list in Hin. cbn [In] in Hin.
  repeat (destruct Hin as [Hin|Hin];
          [injection Hin as <- <- <-|]); try contradiction;
    match type of H with ?f env st = _ => unfold f in H end;
    rewrite bind_emit in H;
    repeat (rewrite bind_lookup in H; cbn [outputs] in H;
            match type of H with
            | match ?d with _ => _ end = _ => destruct d
            end);
    try (injection H as <- <-; right; eexists; split; [reflexivity|];
         apply phase_failed_at_lookup);
    (eapply phase_tail_cases; [| |exact H]; reflexivity).
Qed.

Lemma stores_app (l1 l2 : list event) :
  stores (l1 ++ l2) = (stores l1 ++ stores l2)%list.
Proof.
  induction l1 as [|ev l1 IH]; simpl; [reflexivity|].
  destruct ev; simpl; congruence.
Qed.

Lemma stores_call_events (evs : list event) :
  Forall call_event evs -> stores evs = [].
Proof.
  induction 1 as [|ev evs Hev _ IH]; [reflexivity|].
  destruct ev; simpl in *; try contradiction; exact IH.
Qed.

Lemma seq_run_app (ps qs : list (M unit)) (st : state) :
  seq_run (ps ++ qs) st = (seq_run ps ;; seq_run qs) st.
Proof.
  revert st. induction ps as [|p ps IH]; intros st; simpl.
  - reflexivity.
  - unfold bind. destruct (p st) as [[[]|e] s]; [|reflexivity].
    rewrite IH. reflexivity.
Qed.

(** [run] is its banner, the declared phases in order, the summary. *)
Lemma run_as_sequence (env : remote) (st : state) :
  run env st
  = (emit (EvBanner run_title) ;;
     seq_run (map snd (phase_list env)) ;;
     print_summary) st.
Proof.
  unfold run, run_title. rewrite !bind_emit.
  generalize (mk_state (outputs st) (requests st)
                       (log st ++ [EvBanner run_title])).
  unfold run_title. intros st0. cbn [map snd phase_list seq_run].
  unfold bind, ret.
  repeat match goal with
         | |- context [match ?p ?s with _ => _ end] =>
             lazymatch p with
             | phase_research _ => idtac | phase_analysis _ => idtac
             | phase_blueprint _ => idtac | phase_technical _ => idtac
             | phase_review _ => idtac
             end;
             destruct (p s) as [[[]|?] ?]; try reflexivity
         end.
Qed.

(** A run of phases that all reach their end makes one assignment per
    phase, in order, under the key of the phase. *)
Lemma seq_run_completed (env : remote) (ps : list (string * string * M unit)) :
  incl ps (phase_list env) ->
  forall st s,
    seq_run (map snd ps) st = (Ok tt, s) ->
    exists texts,
      List.length texts = List.length ps
      /\ outputs s
         = fold_left (fun d kv => dict_set (fst kv) (snd kv) d)
                     (combine (map (fun x => snd (fst x)) ps) texts)
                     (outputs st)
      /\ stores (log s)
         = (stores (log st)
            ++ combine (map (fun x => snd (fst x)) ps) texts)%list.
Proof.
  induction ps as [|[[title key] p] ps IH]; intros Hincl st s H.
  - injection H as <-. exists []. simpl. now rewrite app_nil_r.
  - cbn [map snd seq_run] in H. unfold bind in H.
    destruct (p st) as [[[]|e] s1] eqn:E; [|discriminate].
    assert (Hin : In (title, key, p) (phase_list env))
      by (apply Hincl; now left).
    destruct (phase_cases _ _ _ _ _ _ _ Hin E)
      as [[_ [text [evs [Ho [Hl Hev]]]]] | [e [He _]]]; [|discriminate].
    assert (Hincl' : incl ps (phase_list env))
      by (intros x Hx; apply Hincl; now right).
    destruct (IH Hincl' _ _ H) as [texts [Hlen [Ho' Hs']]].
    exists (text :: texts). simpl. split; [congruence|].
    split.
    + rewrite Ho', Ho. reflexivity.
    + rewrite Hs', Hl. rewrite stores_app. simpl. rewrite stores_app.
      rewrite (stores_call_events _ Hev). simpl.
      now rewrite <- app_assoc.
Qed.

(** Whatever its result, a run of phases logs only events of its phases. *)
Lemma seq_run_events (env : remote) (ps : list (string * string * M unit)) :
  incl ps (phase_list env) ->
  forall st res s,
    seq_run (map snd ps) st = (res, s) ->
    exists evs,
      log s = (log st ++ evs)%list /\ Forall (phase_event ps) evs.
Proof.
  induction ps as [|[[title key] p] ps IH]; intros Hincl st res s H.
  - injection H as _ <-. exists []. now rewrite app_nil_r.
  - cbn [map snd seq_run] in H. unfold bind in H.
    assert (Hin : In (title, key, p) (phase_list env))
      by (apply Hincl; now left).
    assert (Hincl' : incl ps (phase_list env))
      by (intros x Hx; apply Hincl; now right).
    assert (Hb : phase_event ((title, key, p) :: ps) (EvBanner title)).
    { right. exists title, key, p. split; [now left | now left]. }
    assert (Hc : forall evs, Forall call_event evs ->
                   Forall (phase_event ((title, key, p) :: ps)) evs).
    { intros evs Hev. eapply Forall_impl; [|exact Hev]. intros ev; now left. }
    destruct (p st) as [[[]|e] s1] eqn:E;
      destruct (phase_cases _ _ _ _ _ _ _ Hin E)
        as [[Hres [text [evs [_ [Hl Hev]]]]] | [e' [He [_ [evs [Hl Hev]]]]]];
      try discriminate.
    + destruct (IH Hincl' _ _ _ H) as [evs' [Hl' Hev']].
      exists ((EvBanner title :: evs ++ [EvStore key text]) ++ evs')%list.
      split; [rewrite Hl', Hl; now rewrite <- app_assoc|].
      apply Forall_app. split.
      * constructor; [exact Hb|]. apply Forall_app. split; [now apply Hc|].
        constructor; [|constructor].
        right. exists title, key, p. split; [now left|]. right. eauto.
      * eapply Forall_impl; [|exact Hev'].
        intros ev [Hev0 | [t [k [q [Hq Hor]]]]]; [now left|].
        right. exists t, k, q. split; [now right | exact Hor].
    + injection H as _ <-. exists (EvBanner title :: evs). split; [exact Hl|].
      constructor; [exact Hb | now apply Hc].
Qed.

Lemma print_summary_all_present (st : state) (c1 c2 c3 c4 c5 : string) :
  outputs st = [("research", c1); ("analysis", c2); ("blueprint", c3);
                ("technical", c4); ("review", c5)] ->
  print_summary st
  = (Ok tt,
     mk_state (outputs st) (requests st)
       (log st ++ [EvBanner "FINAL SUMMARY";
                   EvBanner "FULL RESULTS - ALL PHASES";
                   EvReport [("PHASE 1: MARKET RESEARCH", c1);
                             ("PHASE 2: OPPORTUNITY ANALYSIS", c2);
                             ("PHASE 3: PRODUCT BLUEPRINT", c3);
                             ("PHASE 4: TECHNICAL ARCHITECTURE", c4);
                             ("PHASE 5: STRATEGIC REVIEW", c5)]])).
Proof.
  destruct st as [o r l]. cbn [outputs requests log]. intros ->.
  unfold print_summary. rewrite !bind_emit.
  repeat (rewrite bind_lookup;
          cbn [outputs dict_get String.eqb Ascii.eqb Bool.eqb]).
  unfold emit. cbn [outputs requests log]. rewrite <- !app_assoc.
  reflexivity.
Qed.

(** The state in which the five phases have reached their end. *)
Lemma all_phases_completed (env : remote) (st s : state) :
  outputs st = [] ->
  seq_run (map snd (phase_list env)) st = (Ok tt, s) ->
  exists c1 c2 c3 c4 c5,
    outputs s = [("research", c1); ("analysis", c2); ("blueprint", c3);
                 ("technical", c4); ("review", c5)]
    /\ stores (log s) = (stores (log st) ++ outputs s)%list.
Proof.
  intros Ho H.
  destruct (seq_run_completed env _ (incl_refl _) _ _ H)
    as [texts [Hlen [Hout Hst]]].
  destruct texts as [|c1 [|c2 [|c3 [|c4 [|c5 [|c6 texts]]]]]];
    try discriminate.
  exists c1, c2, c3, c4, c5. rewrite Ho in Hout.
  split; [exact Hout|]. rewrite Hst, Hout. reflexivity.
Qed.

(** C7. After a successful run on a fresh workflow the store holds exactly
    one entry per declared phase, under the keys research, analysis,
    blueprint, technical, review in this order; the assignments made to the
    store during the run are these five entries in this order, one per key,
    so no key was assigned twice. *)
Theorem successful_run_store (env : remote) (st' : state) :
  run env new_workflow = (Ok tt, st') ->
  exists c1 c2 c3 c4 c5,
    outputs st' = [("research", c1); ("analysis", c2); ("blueprint", c3);
                   ("technical", c4); ("review", c5)]
    /\ map fst (outputs st') = phase_keys
    /\ stores (log st') = outputs st'
    /\ NoDup (map fst (stores (log st'))).
Proof.
  intros H. rewrite run_as_sequence, bind_emit in H. unfold bind in H.
  match type of H with
  | context [seq_run ?ps ?st0] =>
      destruct (seq_run ps st0) as [[[]|e] s5] eqn:E; [|discriminate];
      destruct (all_phases_completed env st0 s5 eq_refl E)
        as [c1 [c2 [c3 [c4 [c5 [Ho Hs]]]]]]
  end.
  rewrite (print_summary_all_present _ _ _ _ _ _ Ho) in H.
  injection H as <-. cbn [outputs log].
  exists c1, c2, c3, c4, c5.
  assert (Hst : stores (log s5 ++
                        [EvBanner "FINAL SUMMARY";
                         EvBanner "FULL RESULTS - ALL PHASES";
                         EvReport [("PHASE 1: MARKET RESEARCH", c1);
                                   ("PHASE 2: OPPORTUNITY ANALYSIS", c2);
                                   ("PHASE 3: PRODUCT BLUEPRINT", c3);
                                   ("PHASE 4: TECHNICAL ARCHITECTURE", c4);
                                   ("PHASE 5: STRATEGIC REVIEW", c5)]])
                = outputs s5).
  { rewrite stores_app, Hs. simpl. now rewrite app_nil_r. }
  rewrite Hst, Ho. repeat split.
  repeat constructor; simpl; intuition discriminate.
Qed.

Lemma successful_run_store_witness :
  run (answers "text") new_workflow
    = (Ok tt, snd (run (answers "text") new_workflow))
  /\ exists c1 c2 c3 c4 c5,
       outputs (snd (run (answers "text") new_workflow))
       = [("research", c1); ("analysis", c2); ("blueprint", c3);
          ("technical", c4); ("review", c5)]
       /\ map fst (outputs (snd (run (answers "text") new_workflow)))
          = phase_keys
       /\ stores (log (snd (run (answers "text") new_workflow)))
          = outputs (snd (run (answers "text") new_workflow))
       /\ NoDup (map fst (stores
                   (log (snd (run (answers "text") new_workflow))))).
Proof.
  assert (H : run (answers "text") new_workflow
              = (Ok tt, snd (run (answers "text") new_workflow)))
    by (vm_compute; reflexivity).
  split; [exact H|].
  exact (successful_run_store (answers "text") _ H).
Defined.

(** ** Halting on failure *)

Lemma phase_titles_distinct (env : remote) :
  NoDup (run_title :: map (fun x => fst (fst x)) (phase_list env)).
Proof. repeat constructor; simpl; intuition discriminate. Qed.

Lemma phase_keys_distinct (env : remote) :
  NoDup (map (fun x => snd (fst x)) (phase_list env)).
Proof. repeat constructor; simpl; intuition discriminate. Qed.

(** In a list without repetition under [f], entries at different places
    differ under [f]. *)
Lemma distinct_places {A B} (f : A -> B) (l : list A) (i j : nat) (x y : A) :
  NoDup (map f l) ->
  nth_error l i = Some x -> nth_error l j = Some y ->
  (i < j)%nat -> f x <> f y.
Proof.
  intros Hnd Hi Hj Hlt Heq.
  assert (Hlen : (i < List.length (map f l))%nat).
  { rewrite length_map. apply nth_error_Some. congruence. }
  assert (i = j); [|lia].
  apply (proj1 (NoDup_nth_error (map f l)) Hnd i j Hlen).
  rewrite (map_nth_error f _ _ Hi), (map_nth_error f _ _ Hj). congruence.
Qed.

Lemma in_prefix_place {A} (l1 l2 : list A) (x y : A) :
  In y l1 ->
  exists i, (i < List.length l1)%nat /\ nth_error (l1 ++ x :: l2) i = Some y.
Proof.
  intros Hin. apply In_nth_error in Hin as [i Hi].
  assert (Hlt : (i < List.length l1)%nat)
    by (apply nth_error_Some; congruence).
  exists i. split; [exact Hlt|]. now rewrite nth_error_app1.
Qed.

Lemma phase_event_not_report ps sections :
  ~ phase_event ps (EvReport sections).
Proof.
  intros [H | [t [k [p [_ [H | [text H]]]]]]];
    [exact H | discriminate | discriminate].
Qed.

Lemma call_events_no_banner evs title :
  Forall call_event evs -> ~ In (EvBanner title) evs.
Proof.
  intros H Hin. rewrite Forall_forall in H. exact (H _ Hin).
Qed.

Lemma call_events_no_store evs key text :
  Forall call_event evs -> ~ In (EvStore key text) evs.
Proof.
  intros H Hin. rewrite Forall_forall in H. exact (H _ Hin).
Qed.

Lemma call_events_no_report evs sections :
  Forall call_event evs -> ~ In (EvReport sections) evs.
Proof.
  intros H Hin. rewrite Forall_forall in H. exact (H _ Hin).
Qed.

(** Where the log stands when phase [k] has raised: the banner of the run,
    events of the phases before [k], the banner of phase [k], requests and
    sleeps. *)
Lemma log_at_failure env k title key p e s s' :
  nth_error (phase_list env) k = Some (title, key, p) ->
  run_upto k env new_workflow = (Ok tt, s) ->
  p s = (Raise e, s') ->
  exists evs evs',
    log s' = (EvBanner run_title :: evs ++ EvBanner title :: evs')%list
    /\ Forall (phase_event (firstn k (phase_list env))) evs
    /\ Forall call_event evs'.
Proof.
  intros Hnth Hupto Hp.
  unfold run_upto in Hupto. rewrite bind_emit in Hupto.
  assert (Hincl : incl (firstn k (phase_list env)) (phase_list env)).
  { intros x Hx. rewrite <- (firstn_skipn k (phase_list env)).
    apply in_or_app. now left. }
  destruct (seq_run_events env _ Hincl _ _ _ Hupto) as [evs [Hl Hev]].
  destruct (phase_cases _ _ _ _ _ _ _ (nth_error_In _ _ Hnth) Hp)
    as [[Hres _] | [e' [_ [_ [evs' [Hl' Hev']]]]]]; [discriminate|].
  exists evs, evs'. split; [|split; assumption].
  rewrite Hl', Hl. cbn [log new_workflow app]. reflexivity.
Qed.

(** C8. If the phases before phase [k] have run to their end and phase [k]
    raises, then [run] raises that error and leaves the state as it was at
    the moment of the failure: no later phase has printed its banner or
    assigned to the store, and no report has been written.  A report in the
    log of a run means that the run ended well, that all five phases had run
    to their end before, and that the report is the last thing the run
    did. *)
Theorem failed_phase_halts_run (env : remote) :
  (forall k title key p e s s',
      nth_error (phase_list env) k = Some (title, key, p) ->
      run_upto k env new_workflow = (Ok tt, s) ->
      p s = (Raise e, s') ->
      run env new_workflow = (Raise e, s')
      /\ (forall j title' key' p',
            (k < j)%nat ->
            nth_error (phase_list env) j = Some (title', key', p') ->
            ~ In (EvBanner title') (log s')
            /\ forall text, ~ In (EvStore key' text) (log s'))
      /\ forall sections, ~ In (EvReport sections) (log s'))
  /\ (forall res st sections,
        run env new_workflow = (res, st) ->
        In (EvReport sections) (log st) ->
        res = Ok tt
        /\ exists s5,
             run_upto 5 env new_workflow = (Ok tt, s5)
             /\ log st
                = (log s5 ++ [EvBanner "FINAL SUMMARY";
                              EvBanner "FULL RESULTS - ALL PHASES";
                              EvReport sections])%list
             /\ map snd sections = map snd (outputs s5)
             /\ map fst (outputs s5) = phase_keys).
Proof.
  split.
  - intros k title key p e s s' Hnth Hupto Hp.
    destruct (log_at_failure _ _ _ _ _ _ _ _ Hnth Hupto Hp)
      as [evs [evs' [Hlog [Hev Hev']]]].
    destruct (nth_error_split _ _ Hnth) as [l1 [l2 [HL Hlen]]].
    assert (Hfirst : firstn k (phase_list env) = l1).
    { rewrite HL, <- Hlen, firstn_app, Nat.sub_diag, firstn_all.
      simpl. apply app_nil_r. }
    rewrite Hfirst in Hev.
    split; [|split].
    + rewrite run_as_sequence, bind_emit. unfold bind at 1.
      unfold run_upto in Hupto. rewrite bind_emit, Hfirst in Hupto.
      rewrite HL, map_app, seq_run_app. unfold bind at 1. rewrite Hupto.
      cbn [map snd seq_run]. unfold bind. now rewrite Hp.
    + intros j title' key' p' Hlt Hj.
      pose proof (phase_titles_distinct env) as Ht.
      apply NoDup_cons_iff in Ht as [Hrt Ht].
      pose proof (phase_keys_distinct env) as Hk.
      assert (Hearlier : forall t q r, In (t, q, r) l1 ->
                           t <> title' /\ q <> key').
      { intros t q r Hin.
        destruct (in_prefix_place l1 l2 (title, key, p) _ Hin)
          as [i [Hi Hnthi]].
        rewrite <- HL in Hnthi.
        split.
        - apply (distinct_places (fun x => fst (fst x)) _ i j
                   (t, q, r) (title', key', p') Ht Hnthi Hj). lia.
        - apply (distinct_places (fun x => snd (fst x)) _ i j
                   (t, q, r) (title', key', p') Hk Hnthi Hj). lia. }
      split.
      * rewrite Hlog. intros [Hin | Hin].
        -- injection Hin as Heq. apply Hrt. rewrite Heq.
           apply (in_map (fun x => fst (fst x)) _ (title', key', p')).
           exact (nth_error_In _ _ Hj).
        -- apply in_app_or in Hin as [Hin | [Hin | Hin]].
           ++ rewrite Forall_forall in Hev.
              destruct (Hev _ Hin) as [Hc | [t [q [r [Hin1 [Hb | [x Hs]]]]]]];
                [exact Hc | | discriminate].
              injection Hb as Hb.
              destruct (Hearlier _ _ _ Hin1) as [Hne _]. congruence.
           ++ injection Hin as Heq.
              apply (distinct_places (fun x => fst (fst x)) _ k j
                       (title, key, p) (title', key', p') Ht Hnth Hj Hlt).
              exact Heq.
           ++ exact (call_events_no_banner _ _ Hev' Hin).
      * intros text. rewrite Hlog. intros [Hin | Hin]; [discriminate|].
        apply in_app_or in Hin as [Hin | [Hin | Hin]].
        -- rewrite Forall_forall in Hev.
           destruct (Hev _ Hin) as [Hc | [t [q [r [Hin1 [Hb | [x Hs]]]]]]];
             [exact Hc | discriminate |].
           injection Hs as Hs _.
           destruct (Hearlier _ _ _ Hin1) as [_ Hne]. congruence.
        -- discriminate.
        -- exact (call_events_no_store _ _ _ Hev' Hin).
    + intros sections. rewrite Hlog. intros [Hin | Hin]; [discriminate|].
      apply in_app_or in Hin as [Hin | [Hin | Hin]].
      * rewrite Forall_forall in Hev.
        exact (phase_event_not_report _ _ (Hev _ Hin)).
      * discriminate.
      * exact (call_events_no_report _ _ Hev' Hin).
  - intros res st sections Hrun Hin.
    rewrite run_as_sequence, bind_emit in Hrun. unfold bind in Hrun.
    match type of Hrun with
    | context [seq_run ?ps ?st0] =>
        destruct (seq_run ps st0) as [[[]|e] s5] eqn:E;
        destruct (seq_run_events env _ (incl_refl _) _ _ _ E)
          as [evs [Hl Hev]]
    end.
    + pose proof (fun H0 => all_phases_completed env _ s5 H0 E) as Hc.
      destruct (Hc eq_refl) as [c1 [c2 [c3 [c4 [c5 [Ho Hs]]]]]].
      rewrite (print_summary_all_present _ _ _ _ _ _ Ho) in Hrun.
      injection Hrun as <- <-. cbn [log] in Hin |- *.
      apply in_app_or in Hin as [Hin | Hin].
      * exfalso. rewrite Hl in Hin. cbn [log new_workflow app] in Hin.
        destruct Hin as [Hin | Hin]; [discriminate|].
        rewrite Forall_forall in Hev.
        exact (phase_event_not_report _ _ (Hev _ Hin)).
      * destruct Hin as [Hin | [Hin | [Hin | []]]]; try discriminate.
        injection Hin as <-.
        split; [reflexivity|]. exists s5. repeat split.
        -- unfold run_upto. rewrite bind_emit. exact E.
        -- now rewrite Ho.
        -- now rewrite Ho.
    + exfalso. injection Hrun as _ <-. rewrite Hl in Hin.
      cbn [log new_workflow app] in Hin.
      destruct Hin as [Hin | Hin]; [discriminate|].
      rewrite Forall_forall in Hev.
      exact (phase_event_not_report _ _ (Hev _ Hin)).
Qed.

Lemma failed_phase_halts_run_witness :
  nth_error (phase_list second_request_fails) 1
    = Some ("PHASE 2: OPPORTUNITY ANALYSIS", "analysis",
            phase_analysis second_request_fails)
  /\ run_upto 1 second_request_fails new_workflow
     = (Ok tt, snd (run_upto 1 second_request_fails new_workflow))
  /\ phase_analysis second_request_fails
       (snd (run_upto 1 second_request_fails new_workflow))
     = (Raise connection_error,
        snd (phase_analysis second_request_fails
               (snd (run_upto 1 second_request_fails new_workflow))))
  /\ run second_request_fails new_workflow
     = (Raise connection_error,
        snd (phase_analysis second_request_fails
               (snd (run_upto 1 second_request_fails new_workflow)))).
Proof.
  assert (H1 : nth_error (phase_list second_request_fails) 1
               = Some ("PHASE 2: OPPORTUNITY ANALYSIS", "analysis",
                       phase_analysis second_request_fails))
    by reflexivity.
  assert (H2 : run_upto 1 second_request_fails new_workflow
               = (Ok tt, snd (run_upto 1 second_request_fails new_workflow)))
    by (vm_compute; reflexivity).
  assert (H3 : phase_analysis second_request_fails
                 (snd (run_upto 1 second_request_fails new_workflow))
               = (Raise connection_error,
                  snd (phase_analysis second_request_fails
                         (snd (run_upto 1 second_request_fails
                                        new_workflow)))))
    by (vm_compute; reflexivity).
  split; [exact H1|]. split; [exact H2|]. split; [exact H3|].
  exact (proj1 (proj1 (failed_phase_halts_run second_request_fails)
                      1%nat _ _ _ _ _ _ H1 H2 H3)).
Defined.


(** * Further properties of the executor *)

(** ** The shape of a call *)

Lemma seq_cons (a n : nat) : seq a (S n) = a :: seq (S a) n.
Proof. reflexivity. Qed.

(** From a call to its description. *)
Lemma retry_loop_trace env sp um max_retries :
  forall n a st res st',
    Z.of_nat (a + S n) = max_retries ->
    retry_loop env sp um max_retries (map Z.of_nat (seq a (S n))) st
    = (res, st') ->
    exists ws,
      retried env (requests st) ws
      /\ (List.length ws <= n)%nat
      /\ st' = mk_state (outputs st) (requests st + S (List.length ws))
                        (log st ++ call_trace sp um ws)
      /\ ends_with (env (requests st + List.length ws)%nat)
                   (Nat.eqb (List.length ws) n) res.
Proof.
  assert (Hstop : forall n st res st',
             (res, sent sp um st) = (res, st') ->
             ends_with (env (requests st)) (Nat.eqb 0 n) res ->
             exists ws,
               retried env (requests st) ws
               /\ (List.length ws <= n)%nat
               /\ st' = mk_state (outputs st)
                                 (requests st + S (List.length ws))
                                 (log st ++ call_trace sp um ws)
               /\ ends_with (env (requests st + List.length ws)%nat)
                            (Nat.eqb (List.length ws) n) res).
  { intros n st res st' H Hend. injection H as <-. exists [].
    cbn [List.length retried call_trace].
    rewrite Nat.add_0_r, Nat.add_1_r. repeat split; [lia | exact Hend]. }
  induction n as [|n IH]; intros a st res st' Ha H;
    rewrite seq_cons in H; cbn [map] in H;
    cbn [retry_loop] in H; unfold create in H.
  - destruct (env (requests st)) as [r|e] eqn:He.
    + injection H as <- <-. apply Hstop; [reflexivity|].
      unfold ends_with. now rewrite He.
    + destruct (is_rate_limit e) eqn:Hc.
      * destruct (wait_time (exc_msg e)) as [w|e'] eqn:Hw.
        -- replace (Z.of_nat a <? max_retries - 1) with false in H
             by (symmetry; apply Z.ltb_ge; lia).
           injection H as <- <-. apply Hstop; [reflexivity|].
           unfold ends_with. rewrite He, Hc, Hw. reflexivity.
        -- injection H as <- <-. apply Hstop; [reflexivity|].
           unfold ends_with. now rewrite He, Hc, Hw.
      * injection H as <- <-. apply Hstop; [reflexivity|].
        unfold ends_with. now rewrite He, Hc.
  - destruct (env (requests st)) as [r|e] eqn:He.
    + injection H as <- <-. apply Hstop; [reflexivity|].
      unfold ends_with. now rewrite He.
    + destruct (is_rate_limit e) eqn:Hc.
      * destruct (wait_time (exc_msg e)) as [w|e'] eqn:Hw.
        -- replace (Z.of_nat a <? max_retries - 1) with true in H
             by (symmetry; apply Z.ltb_lt; lia).
           destruct (sleep_check w) as [e'|] eqn:Hs.
           ++ rewrite (sleep_refused _ _ _ _ Hs) in H.
              injection H as <- <-. apply Hstop; [reflexivity|].
              unfold ends_with. rewrite He, Hc, Hw. cbn [Nat.eqb].
              now exists e'.
           ++ rewrite (sleep_accepted _ _ _ Hs) in H.
              apply IH in H as [ws [Hr [Hlen [Hst Hend]]]]; [|lia].
              exists (w :: ws). cbn [List.length retried call_trace].
              cbn [requests outputs log sent] in Hr, Hend, Hst.
              split; [split; [exists e; auto | split; [exact Hs|exact Hr]]|].
              split; [lia|]. split.
              ** rewrite Hst. cbn [outputs requests log sent].
                 f_equal; [lia|]. now rewrite <- !app_assoc.
              ** replace (requests st + S (List.length ws))%nat
                   with (S (requests st) + List.length ws)%nat by lia.
                 exact Hend.
        -- injection H as <- <-. apply Hstop; [reflexivity|].
           unfold ends_with. now rewrite He, Hc, Hw.
      * injection H as <- <-. apply Hstop; [reflexivity|].
        unfold ends_with. now rewrite He, Hc.
Qed.

(** From a description to the call. *)
Lemma retry_loop_of_trace env sp um max_retries :
  forall ws n a st res,
    Z.of_nat (a + S n) = max_retries ->
    retried env (requests st) ws ->
    (List.length ws <= n)%nat ->
    ends_with (env (requests st + List.length ws)%nat)
              (Nat.eqb (List.length ws) n) res ->
    retry_loop env sp um max_retries (map Z.of_nat (seq a (S n))) st
    = (res, mk_state (outputs st) (requests st + S (List.length ws))
                     (log st ++ call_trace sp um ws)).
Proof.
  induction ws as [|w ws IH]; intros n a st res Ha Hr Hlen Hend;
    rewrite seq_cons; cbn [map retry_loop]; unfold create.
  - cbn [List.length call_trace] in *.
    rewrite Nat.add_0_r in Hend. rewrite Nat.add_1_r.
    unfold ends_with in Hend. destruct (env (requests st)) as [r|e].
    + now rewrite Hend.
    + destruct (is_rate_limit e); [|now rewrite Hend].
      destruct (wait_time (exc_msg e)) as [w|e']; [|now rewrite Hend].
      destruct n as [|n]; cbn [Nat.eqb] in Hend.
      * replace (Z.of_nat a <? max_retries - 1) with false
          by (symmetry; apply Z.ltb_ge; lia).
        now rewrite Hend.
      * replace (Z.of_nat a <? max_retries - 1) with true
          by (symmetry; apply Z.ltb_lt; lia).
        destruct Hend as [e' [Hs ->]]. now apply sleep_refused.
  - cbn [List.length retried call_trace] in *.
    destruct Hr as [[e [He [Hc Hw]]] [Hs Hr]].
    rewrite He, Hc, Hw.
    destruct n as [|n]; [lia|].
    replace (Z.of_nat a <? max_retries - 1) with true
      by (symmetry; apply Z.ltb_lt; lia).
    rewrite (sleep_accepted _ _ _ Hs).
    rewrite (IH n (S a) _ res); cbn [requests outputs log sent].
    + f_equal. f_equal; [lia|]. now rewrite <- !app_assoc.
    + lia.
    + exact Hr.
    + lia.
    + replace (S (requests st) + List.length ws)%nat
        with (requests st + S (List.length ws))%nat by lia.
      exact Hend.
Qed.

Lemma range_succ (max_retries : Z) :
  0 < max_retries ->
  exists n, range max_retries = map Z.of_nat (seq 0 (S n))
            /\ Z.of_nat (0 + S n) = max_retries.
Proof.
  intros Hpos. unfold range.
  destruct (Z.to_nat max_retries) as [|n] eqn:En; [lia|].
  exists n. split; [reflexivity | lia].
Qed.

Lemma make_api_call_trace env sp um max_retries st res st' :
  0 < max_retries ->
  _make_api_call env sp um max_retries st = (res, st') ->
  exists ws,
    retried env (requests st) ws
    /\ Z.of_nat (List.length ws) < max_retries
    /\ st' = mk_state (outputs st) (requests st + S (List.length ws))
                      (log st ++ call_trace sp um ws)
    /\ ends_with (env (requests st + List.length ws)%nat)
                 (Z.of_nat (List.length ws) =? max_retries - 1) res.
Proof.
  intros Hpos H. unfold _make_api_call in H.
  destruct (range_succ _ Hpos) as [n [Hrange Hn]]. rewrite Hrange in H.
  apply retry_loop_trace in H as [ws [Hr [Hlen [Hst Hend]]]]; [|exact Hn].
  exists ws. repeat split; try assumption; [lia|].
  replace (Z.of_nat (List.length ws) =? max_retries - 1)
    with (Nat.eqb (List.length ws) n); [exact Hend|].
  destruct (Nat.eqb_spec (List.length ws) n); symmetry;
    [apply Z.eqb_eq | apply Z.eqb_neq]; lia.
Qed.

Lemma make_api_call_of_trace env sp um max_retries st res ws :
  0 < max_retries ->
  retried env (requests st) ws ->
  Z.of_nat (List.length ws) < max_retries ->
  ends_with (env (requests st + List.length ws)%nat)
            (Z.of_nat (List.length ws) =? max_retries - 1) res ->
  _make_api_call env sp um max_retries st
  = (res, mk_state (outputs st) (requests st + S (List.length ws))
                   (log st ++ call_trace sp um ws)).
Proof.
  intros Hpos Hr Hlen Hend. unfold _make_api_call.
  destruct (range_succ _ Hpos) as [n [Hrange Hn]]. rewrite Hrange.
  apply retry_loop_of_trace; try assumption; [lia|].
  replace (Nat.eqb (List.length ws) n)
    with (Z.of_nat (List.length ws) =? max_retries - 1); [exact Hend|].
  destruct (Nat.eqb_spec (List.length ws) n);
    [apply Z.eqb_eq | apply Z.eqb_neq]; lia.
Qed.

(** With at least one attempt allowed, a call is, exactly: some requests
    answered by rate-limit errors, each followed by a sleep of the wait
    computed from its message, a wait that [sleep] accepts, fewer of them
    than [max_retries]; then one more request, whose outcome decides the
    result.  A response is returned; an error that is not a rate-limit
    error is raised; an exception of the wait-time computation is raised in
    place of the rate-limit error; a rate-limit error with a computed wait
    is raised when it comes at the last attempt allowed, and before the
    last attempt the call ends on it only when [sleep] refuses the wait,
    with the exception of [sleep]. *)
Theorem make_api_call_iff env sp um max_retries st res st' :
  0 < max_retries ->
  (_make_api_call env sp um max_retries st = (res, st') <->
   exists ws,
     retried env (requests st) ws
     /\ Z.of_nat (List.length ws) < max_retries
     /\ st' = mk_state (outputs st) (requests st + S (List.length ws))
                       (log st ++ call_trace sp um ws)
     /\ ends_with (env (requests st + List.length ws)%nat)
                  (Z.of_nat (List.length ws) =? max_retries - 1) res).
Proof.
  intros Hpos. split.
  - now apply make_api_call_trace.
  - intros [ws [Hr [Hlen [-> Hend]]]].
    now apply make_api_call_of_trace.
Qed.

Lemma make_api_call_iff_witness :
  0 < 3
  /\ _make_api_call (always (Raised long_wait_error)) "system" "user" 3
                    new_workflow
     = (Raise sleep_overflow, mk_state [] 1 [EvRequest "system" "user"]).
Proof.
  split; [lia|].
  apply (proj2 (make_api_call_iff
                  (always (Raised long_wait_error)) "system" "user" 3
                  new_workflow (Raise sleep_overflow)
                  (mk_state [] 1 [EvRequest "system" "user"])
                  ltac:(lia))).
  exists []. split; [exact I|]. split; [simpl; lia|].
  split; [reflexivity|].
  exists sleep_overflow. split; vm_compute; reflexivity.
Defined.

Lemma ends_with_not_None o last : ~ ends_with o last (Ok None).
Proof.
  unfold ends_with. destruct o as [r|e]; [discriminate|].
  destruct (is_rate_limit e); [|discriminate].
  destruct (wait_time (exc_msg e)); [|discriminate].
  destruct last; [discriminate|]. intros [e' [_ H]]. discriminate.
Qed.

(** With at least one attempt allowed a call never returns [None]: it
    returns a response or raises. *)
Theorem make_api_call_never_None env sp um max_retries st res st' :
  0 < max_retries ->
  _make_api_call env sp um max_retries st = (res, st') ->
  (exists r, res = Ok (Some r)) \/ (exists e, res = Raise e).
Proof.
  intros Hpos H. apply make_api_call_trace in H as [ws [_ [_ [_ Hend]]]];
    [|exact Hpos].
  destruct res as [[r|]|e]; eauto.
  exfalso. exact (ends_with_not_None _ _ Hend).
Qed.

Lemma make_api_call_never_None_witness :
  0 < 3
  /\ _make_api_call (always (Raised connection_error)) "system" "user" 3
                    new_workflow
     = (Raise connection_error, mk_state [] 1 [EvRequest "system" "user"])
  /\ ((exists r : response, Raise connection_error = Ok (Some r))
      \/ (exists e, @Raise (option response) connection_error = Raise e)).
Proof.
  assert (H : _make_api_call (always (Raised connection_error))
                "system" "user" 3 new_workflow
              = (Raise connection_error,
                 mk_state [] 1 [EvRequest "system" "user"]))
    by reflexivity.
  split; [lia|]. split; [exact H|].
  apply (make_api_call_never_None _ _ _ 3 _ _ _ ltac:(lia) H).
Defined.

Lemma count_requests_call_trace sp um ws :
  count_requests (call_trace sp um ws) = S (List.length ws).
Proof. induction ws; simpl; congruence. Qed.

Lemma count_sleeps_call_trace sp um ws :
  count_sleeps (call_trace sp um ws) = List.length ws.
Proof. induction ws; simpl; congruence. Qed.

Lemma call_trace_last sp um ws :
  exists evs, call_trace sp um ws = (evs ++ [EvRequest sp um])%list.
Proof.
  induction ws as [|w ws [evs IH]]; simpl.
  - now exists [].
  - exists (EvRequest sp um :: EvSleep w :: evs). now rewrite IH.
Qed.

(** What a call costs.  With at least one attempt allowed, a call adds to
    the log at least one and at most [max_retries] requests, one sleep fewer
    than requests, and the last thing it does is a request: it never sleeps
    after its final attempt.  The store is untouched. *)
Theorem make_api_call_cost env sp um max_retries st res st' :
  0 < max_retries ->
  _make_api_call env sp um max_retries st = (res, st') ->
  exists evs,
    log st' = (log st ++ evs ++ [EvRequest sp um])%list
    /\ (1 <= count_requests (evs ++ [EvRequest sp um]))%nat
    /\ Z.of_nat (count_requests (evs ++ [EvRequest sp um])) <= max_retries
    /\ S (count_sleeps (evs ++ [EvRequest sp um]))
       = count_requests (evs ++ [EvRequest sp um])
    /\ requests st'
       = (requests st + count_requests (evs ++ [EvRequest sp um]))%nat
    /\ outputs st' = outputs st.
Proof.
  intros Hpos H. apply make_api_call_trace in H as [ws [_ [Hlen [-> _]]]];
    [|exact Hpos].
  destruct (call_trace_last sp um ws) as [evs Hevs].
  exists evs. rewrite <- Hevs.
  rewrite count_requests_call_trace, count_sleeps_call_trace.
  cbn [log requests outputs]. repeat split; lia.
Qed.

Lemma make_api_call_cost_witness :
  0 < 3
  /\ _make_api_call (always (Raised plain_rate_limit_error))
                    "system" "user" 3 new_workflow
     = (Raise plain_rate_limit_error,
        mk_state [] 3 [EvRequest "system" "user"; EvSleep 60;
                       EvRequest "system" "user"; EvSleep 60;
                       EvRequest "system" "user"])
  /\ exists evs,
       [EvRequest "system" "user"; EvSleep 60;
        EvRequest "system" "user"; EvSleep 60; EvRequest "system" "user"]
       = ([] ++ evs ++ [EvRequest "system" "user"])%list
       /\ (1 <= count_requests (evs ++ [EvRequest "system" "user"]))%nat
       /\ Z.of_nat (count_requests (evs ++ [EvRequest "system" "user"])) <= 3
       /\ S (count_sleeps (evs ++ [EvRequest "system" "user"]))
          = count_requests (evs ++ [EvRequest "system" "user"])
       /\ 3%nat
          = (0 + count_requests (evs ++ [EvRequest "system" "user"]))%nat
       /\ @nil (string * string) = [].
Proof.
  assert (H : _make_api_call (always (Raised plain_rate_limit_error))
                "system" "user" 3 new_workflow
              = (Raise plain_rate_limit_error,
                 mk_state [] 3 [EvRequest "system" "user"; EvSleep 60;
                                EvRequest "system" "user"; EvSleep 60;
                                EvRequest "system" "user"]))
    by reflexivity.
  split; [lia|]. split; [exact H|].
  exact (make_api_call_cost _ _ _ 3 _ _ _ ltac:(lia) H).
Defined.

(** ** The wait time: bounds and failures *)

Section Rounding.

Lemma iter_pos_invariant {A} (P : A -> Prop) (f : A -> A) :
  (forall x, P x -> P (f x)) ->
  forall p x, P x -> P (iter_pos f p x).
Proof.
  intros Hf. induction p as [p IH|p IH|]; intros x Hx; simpl; auto.
Qed.

Lemma shr_1_nonneg mrs : 0 <= shr_m mrs -> 0 <= shr_m (shr_1 mrs).
Proof.
  destruct mrs as [m r s]. simpl. intros Hm.
  destruct m as [|p|p]; [simpl; lia | | lia].
  destruct p; simpl; lia.
Qed.

Lemma shr_fexp_nonneg m e l :
  0 <= m ->
  0 <= shr_m (fst (shr_fexp PyFloat.prec PyFloat.emax m e l)).
Proof.
  intros Hm. unfold shr_fexp, shr.
  assert (H0 : 0 <= shr_m (shr_record_of_loc m l))
    by (destruct l as [|[]]; exact Hm).
  destruct (_ - e) as [|p|p]; simpl; try exact H0.
  apply iter_pos_invariant; [exact shr_1_nonneg | exact H0].
Qed.

Lemma round_nearest_even_nonneg m l : 0 <= m -> 0 <= round_nearest_even m l.
Proof.
  intros Hm. destruct l as [|[]]; simpl; try lia.
  destruct (Z.even m); lia.
Qed.

(** Rounding a non-negative mantissa gives zero, a positive finite float or
    plus infinity, never NaN. *)
Lemma binary_round_aux_plain m e l :
  0 <= m ->
  plain_float (binary_round_aux PyFloat.prec PyFloat.emax false m e l).
Proof.
  intros Hm. unfold binary_round_aux.
  pose proof (shr_fexp_nonneg m e l Hm) as H1.
  destruct (shr_fexp _ _ m e l) as [mrs e']. simpl in H1.
  pose proof (shr_fexp_nonneg _ e' loc_Exact
                (round_nearest_even_nonneg _ (loc_of_shr_record mrs) H1))
    as H2.
  destruct (shr_fexp _ _ _ e' loc_Exact) as [mrs' e'']. simpl in H2.
  destruct (shr_m mrs'); simpl; try lia; auto.
  destruct (Z.leb _ _); simpl; auto.
Qed.

Lemma float_plain tok v : PyFloat.float tok = Ok v -> plain_float v.
Proof.
  unfold PyFloat.float.
  destruct (PyFloat.parse_decimal tok) as [[n k]|]; [|discriminate].
  destruct n; intros H; injection H as <-; simpl; auto.
  unfold PyFloat.round_ratio, SFdiv_core_binary.
  match goal with
  | |- context [Z.div_eucl ?a ?b] =>
      pose proof (Z.div_eucl_eq a b ltac:(lia)) as Hdiv;
      pose proof (Z.mod_pos_bound a b ltac:(lia)) as Hmod;
      assert (Ha : 0 <= a);
      [| assert (Hq : 0 <= a / b) by (apply Z.div_pos; lia);
         unfold Z.modulo, Z.div in Hmod, Hq;
         destruct (Z.div_eucl a b) as [q r] ]
  end.
  - match goal with
    | |- 0 <= match ?s with _ => _ end =>
        destruct s; try lia; apply Z.shiftl_nonneg; lia
    end.
  - apply binary_round_aux_plain. exact Hq.
Qed.

Lemma mul_plain x y :
  plain_float x -> plain_float y ->
  (exists m e, y = S754_finite false m e) ->
  plain_float (PyFloat.mul x y).
Proof.
  intros Hx Hy [m [e ->]]. unfold PyFloat.mul.
  destruct x as [sx|sx| |sx mx ex]; simpl in *; subst; auto.
  apply binary_round_aux_plain. lia.
Qed.

Lemma int_plain x :
  plain_float x ->
  (exists i, PyFloat.int x = Ok i /\ 0 <= i)
  \/ PyFloat.int x = Raise overflow_error.
Proof.
  destruct x as [s|s| |s m e]; cbn [plain_float PyFloat.int]; intros H;
    try contradiction.
  - left. exists 0. split; [reflexivity | lia].
  - now right.
  - subst s. left.
    exists (if 0 <=? e then Z.pos m * 2 ^ e else Z.pos m / 2 ^ (- e)).
    split; [reflexivity|].
    destruct (0 <=? e) eqn:E.
    + apply Z.leb_le in E. apply Z.mul_nonneg_nonneg; [lia|].
      apply Z.pow_nonneg. lia.
    + apply Z.leb_gt in E. apply Z.div_pos; [lia|].
      apply Z.pow_pos_nonneg; lia.
Qed.

End Rounding.

Section Numerals.

Lemma span_rest (p : ascii -> bool) (s : string) c t :
  snd (span p s) = String c t -> p c = false.
Proof.
  induction s as [|d s IH]; simpl; [discriminate|].
  destruct (p d) eqn:E.
  - destruct (span p s); simpl in *. exact IH.
  - simpl. intros H; injection H as <- _. exact E.
Qed.

Lemma all_chars_append p a b :
  all_chars p (a ++ b) = all_chars p a && all_chars p b.
Proof. induction a; simpl; [reflexivity|]. now rewrite IHa, andb_assoc. Qed.

Lemma count_dots_append a b :
  count_dots (a ++ b) = (count_dots a + count_dots b)%nat.
Proof. induction a; simpl; [reflexivity|]. rewrite IHa. lia. Qed.

Lemma has_digit_append a b : has_digit (a ++ b) = has_digit a || has_digit b.
Proof. induction a; simpl; [reflexivity|]. now rewrite IHa, orb_assoc. Qed.

Lemma digit_not_dot c : is_digit c = true -> Ascii.eqb c "." = false.
Proof.
  intros H. destruct (Ascii.eqb_spec c "."); [subst; discriminate|reflexivity].
Qed.

Lemma digits_no_dot a : all_chars is_digit a = true -> count_dots a = 0%nat.
Proof.
  induction a as [|c a IH]; simpl; [reflexivity|].
  intros H. apply andb_true_iff in H as [Hc Ha].
  now rewrite (digit_not_dot _ Hc), (IH Ha).
Qed.

Lemma digits_has_digit a :
  all_chars is_digit a = true ->
  has_digit a = negb (String.eqb a EmptyString).
Proof.
  destruct a as [|c a]; simpl; [reflexivity|].
  intros H. apply andb_true_iff in H as [-> _]. reflexivity.
Qed.

Lemma no_dot_digits a :
  all_chars value_class a = true -> count_dots a = 0%nat ->
  all_chars is_digit a = true.
Proof.
  induction a as [|c a IH]; simpl; [reflexivity|].
  intros H Hd. apply andb_true_iff in H as [Hc Ha].
  unfold value_class in Hc. destruct (Ascii.eqb c "."); [discriminate|].
  rewrite orb_false_r in Hc. rewrite Hc. now apply IH.
Qed.

(** [float] reads a token of digits and dots exactly when it has a digit
    and at most one dot. *)
Lemma parse_decimal_None_iff tok :
  all_chars value_class tok = true ->
  (PyFloat.parse_decimal tok = None <-> decimal_numeral tok = false).
Proof.
  intros Hv. unfold PyFloat.parse_decimal, decimal_numeral.
  pose proof (span_append is_digit tok) as Happ.
  pose proof (span_all is_digit tok) as Hip.
  pose proof (span_rest is_digit tok) as Hrest.
  destruct (span is_digit tok) as [ip r]. simpl in Happ, Hip, Hrest.
  subst tok. rewrite all_chars_append in Hv.
  apply andb_true_iff in Hv as [_ Hr].
  rewrite has_digit_append, count_dots_append, (digits_no_dot _ Hip),
    (digits_has_digit _ Hip).
  destruct r as [|c fp].
  - simpl. rewrite orb_false_r, andb_true_r.
    destruct ip; simpl; split; congruence.
  - specialize (Hrest c fp eq_refl).
    simpl in Hr. apply andb_true_iff in Hr as [Hc Hfp].
    unfold value_class in Hc. rewrite Hrest in Hc. simpl in Hc.
    cbn [count_dots has_digit]. rewrite Hc, Hrest. cbn [andb orb Nat.add].
    destruct (all_chars is_digit fp) eqn:Hd.
    + rewrite (digits_no_dot _ Hd), (digits_has_digit _ Hd).
      cbn [Nat.leb andb].
      assert (Hne : String.eqb (ip ++ fp) "" =
                    String.eqb ip "" && String.eqb fp "")
        by (destruct ip, fp; reflexivity).
      rewrite Hne, andb_true_r.
      destruct (String.eqb ip ""), (String.eqb fp ""); simpl;
        split; congruence.
    + cbn [andb]. split; [intros _|reflexivity].
      destruct (count_dots fp) eqn:Hn.
      * rewrite (no_dot_digits _ Hfp Hn) in Hd. discriminate.
      * simpl. now rewrite andb_false_r.
Qed.

End Numerals.

Lemma wait_time_no_phrase msg : re_search msg = None -> wait_time msg = Ok 60.
Proof. intros H. unfold wait_time. rewrite H. now destruct (contains _ _). Qed.

Lemma plus_buffer_outcome x b :
  plain_float x -> 5 <= b ->
  (exists w,
      match PyFloat.int x with
      | Ok i => Ok (i + b)
      | Raise e => Raise e
      end = Ok w /\ 5 <= w)
  \/ match PyFloat.int x with
     | Ok i => Ok (i + b)
     | Raise e => Raise e
     end = Raise overflow_error.
Proof.
  intros Hx Hb. destruct (int_plain x Hx) as [[i [-> Hi]] | ->].
  - left. exists (i + b). split; [reflexivity | lia].
  - now right.
Qed.

(** What the computation gives on the leftmost phrase, by the token. *)
Lemma wait_time_of_phrase msg tok u :
  first_phrase tok u msg ->
  (decimal_numeral tok = false
   /\ wait_time msg = Raise (PyFloat.value_error tok))
  \/ (decimal_numeral tok = true
      /\ ((exists w, wait_time msg = Ok w /\ 5 <= w)
          \/ wait_time msg = Raise overflow_error)).
Proof.
  intros Hf. rewrite (wait_time_first_phrase _ _ _ Hf).
  destruct Hf as [pre [post [[_ [_ [Hv _]]] _]]].
  pose proof (parse_decimal_None_iff tok Hv) as Hnone.
  destruct (PyFloat.float tok) as [v|e] eqn:Efl.
  - right. split.
    { destruct (decimal_numeral tok); [reflexivity|].
      destruct Hnone as [_ H]. specialize (H eq_refl).
      unfold PyFloat.float in Efl. rewrite H in Efl. discriminate. }
    pose proof (float_plain _ _ Efl) as Hp.
    assert (H60 : exists m e, PyFloat.of_int 60 = S754_finite false m e)
      by (do 2 eexists; reflexivity).
    assert (H3600 : exists m e, PyFloat.of_int 3600 = S754_finite false m e)
      by (do 2 eexists; reflexivity).
    destruct (Ascii.eqb u "s"); [apply plus_buffer_outcome; [exact Hp|lia]|].
    destruct (Ascii.eqb u "m").
    + apply plus_buffer_outcome; [|lia].
      apply mul_plain; [exact Hp | | exact H60].
      destruct H60 as [m [e0 ->]]. reflexivity.
    + apply plus_buffer_outcome; [|lia].
      apply mul_plain; [exact Hp | | exact H3600].
      destruct H3600 as [m [e0 ->]]. reflexivity.
  - left. unfold PyFloat.float in Efl.
    destruct (PyFloat.parse_decimal tok) as [[n k]|] eqn:Ep.
    + destruct n; discriminate.
    + injection Efl as <-. split; [|reflexivity]. now apply Hnone.
Qed.

(** The wait-time computation has four outcomes and no other.  Without a
    wait-time phrase in the message it gives 60.  With one, it works from the
    leftmost: when the token is not a numeral (no digit, or more than one
    dot) it raises the ValueError of [float] naming the token; when it is, it
    gives a wait of at least 5 seconds, or raises the OverflowError of [int]
    on an infinite float. *)
Theorem wait_time_outcomes (msg : string) :
  (no_phrase msg /\ wait_time msg = Ok 60)
  \/ exists tok u,
       first_phrase tok u msg
       /\ ((decimal_numeral tok = false
            /\ wait_time msg = Raise (PyFloat.value_error tok))
           \/ (decimal_numeral tok = true
               /\ ((exists w, wait_time msg = Ok w /\ 5 <= w)
                   \/ wait_time msg = Raise overflow_error))).
Proof.
  destruct (re_search msg) as [[tok u]|] eqn:E.
  - right. exists tok, u. apply re_search_Some_iff in E.
    split; [exact E|]. now apply wait_time_of_phrase with (u := u).
  - left. split; [now apply re_search_None_iff|].
    now apply wait_time_no_phrase.
Qed.

(** On a message with a wait-time phrase, the computation raises the
    ValueError of the float conversion exactly when the token of the
    leftmost phrase has no digit or has more than one dot. *)
Theorem wait_time_ValueError_iff (msg tok : string) (u : ascii) :
  first_phrase tok u msg ->
  (wait_time msg = Raise (PyFloat.value_error tok)
   <-> decimal_numeral tok = false).
Proof.
  intros Hf.
  destruct (wait_time_of_phrase _ _ _ Hf)
    as [[Hd Hw] | [Hd [[w [Hw _]] | Hw]]]; rewrite Hw, Hd;
    split; try reflexivity; try discriminate.
Qed.

Lemma wait_time_ValueError_iff_witness :
  first_phrase "1.2.3" "s"
    "Rate limit reached. Please try again in 1.2.3s"
  /\ decimal_numeral "1.2.3" = false
  /\ wait_time "Rate limit reached. Please try again in 1.2.3s"
     = Raise (PyFloat.value_error "1.2.3").
Proof.
  assert (Hf : first_phrase "1.2.3" "s"
                 "Rate limit reached. Please try again in 1.2.3s")
    by (apply re_search_Some_iff; reflexivity).
  split; [exact Hf|]. split; [reflexivity|].
  exact (proj2 (wait_time_ValueError_iff _ _ _ Hf) eq_refl).
Defined.

Lemma wait_time_at_least_5 msg w : wait_time msg = Ok w -> 5 <= w.
Proof.
  intros Hw. destruct (re_search msg) as [[tok u]|] eqn:E.
  - apply re_search_Some_iff in E.
    destruct (wait_time_of_phrase _ _ _ E)
      as [[_ Hr] | [_ [[w' [Hw' Hle]] | Hr]]];
      rewrite Hw in *; try discriminate.
    injection Hw' as ->. exact Hle.
  - rewrite (wait_time_no_phrase _ E) in Hw. injection Hw as <-. lia.
Qed.

Lemma retried_waits env n ws :
  retried env n ws -> Forall (fun w => 5 <= w) ws.
Proof.
  revert n. induction ws as [|w ws IH]; intros n H; constructor.
  - destruct H as [[e [_ [_ Hw]]] _]. exact (wait_time_at_least_5 _ _ Hw).
  - destruct H as [_ [_ H]]. exact (IH _ H).
Qed.


Lemma call_trace_sleeps sp um ws w :
  In (EvSleep w) (call_trace sp um ws) -> In w ws.
Proof.
  induction ws as [|w' ws IH]; simpl.
  - intros [H|[]]. discriminate.
  - intros [H|[H|H]]; [discriminate | injection H as ->; now left |].
    right. now apply IH.
Qed.

(** Every sleep a call makes lasts at least 5 seconds: the sleep is never
    given a negative or zero duration. *)
Theorem make_api_call_sleeps_at_least_5 env sp um max_retries st res st' :
  _make_api_call env sp um max_retries st = (res, st') ->
  exists evs,
    log st' = (log st ++ evs)%list
    /\ forall w, In (EvSleep w) evs -> 5 <= w.
Proof.
  intros H. destruct (Z.ltb_spec 0 max_retries) as [Hpos|Hle].
  - apply make_api_call_trace in H as [ws [Hr [_ [-> _]]]]; [|exact Hpos].
    exists (call_trace sp um ws). split; [reflexivity|].
    intros w Hin. apply call_trace_sleeps in Hin.
    pose proof (retried_waits _ _ _ Hr) as Hall.
    rewrite Forall_forall in Hall. now apply Hall.
  - unfold _make_api_call, range in H.
    replace (Z.to_nat max_retries) with 0%nat in H by lia.
    injection H as _ <-. exists []. split; [now rewrite app_nil_r|].
    intros w [].
Qed.

Lemma make_api_call_sleeps_at_least_5_witness :
  _make_api_call (fails_once compound_hint_error (mk_response "text"))
                 "system" "user" 3 new_workflow
  = (Ok (Some (mk_response "text")),
     mk_state [] 2 [EvRequest "system" "user"; EvSleep 190;
                    EvRequest "system" "user"])
  /\ exists evs,
       [EvRequest "system" "user"; EvSleep 190; EvRequest "system" "user"]
       = ([] ++ evs)%list
       /\ forall w, In (EvSleep w) evs -> 5 <= w.
Proof.
  assert (H : _make_api_call
                (fails_once compound_hint_error (mk_response "text"))
                "system" "user" 3 new_workflow
              = (Ok (Some (mk_response "text")),
                 mk_state [] 2 [EvRequest "system" "user"; EvSleep 190;
                                EvRequest "system" "user"]))
    by reflexivity.
  split; [exact H|].
  exact (make_api_call_sleeps_at_least_5 _ _ _ _ _ _ _ H).
Defined.

(** ** Classification: case and context *)

Lemma lower_char_digit c :
  is_digit (lower_char c) = true -> lower_char c = c.
Proof.
  destruct c as [[] [] [] [] [] [] [] []]; vm_compute;
    intros H; try reflexivity; discriminate.
Qed.

Lemma lower_digits_inv (s n : string) :
  all_chars is_digit n = true -> lower s = n -> s = n.
Proof.
  revert n. induction s as [|c s IH]; intros n Hn H; simpl in H.
  - exact H.
  - destruct n as [|d n]; [discriminate|]. injection H as Hc Hs.
    simpl in Hn. apply andb_true_iff in Hn as [Hd Hn].
    rewrite <- Hc in Hd. rewrite <- (lower_char_digit _ Hd), Hc.
    f_equal. now apply IH.
Qed.

Lemma lower_digits (n : string) : all_chars is_digit n = true -> lower n = n.
Proof.
  induction n as [|d n IH]; simpl; [reflexivity|].
  intros H. apply andb_true_iff in H as [Hd Hn]. rewrite (IH Hn). f_equal.
  revert Hd. destruct d as [[] [] [] [] [] [] [] []]; vm_compute;
    intros H; try reflexivity; discriminate.
Qed.

(** A needle made of digits is found in a message exactly when it is found
    in its lower-case form. *)
Lemma contains_digits_lower (needle s : string) :
  all_chars is_digit needle = true ->
  contains needle (lower s) = contains needle s.
Proof.
  intros Hn. apply eq_true_iff_eq. rewrite !contains_spec. split.
  - intros [a [b H]].
    apply lower_split in H as [pre [r [-> [_ Hr]]]].
    apply lower_split in Hr as [mid [post [-> [Hm _]]]].
    apply (lower_digits_inv _ _ Hn) in Hm. subst mid. eauto.
  - intros [a [b ->]]. exists (lower a), (lower b).
    now rewrite !lower_append, (lower_digits _ Hn).
Qed.

(** The classification does not look at the case of letters: two errors of
    the same type whose messages have the same lower-case form are classified
    alike. *)
Theorem is_rate_limit_case_blind (t m m' : string) :
  lower m = lower m' ->
  is_rate_limit (mk_exn t m) = is_rate_limit (mk_exn t m').
Proof.
  intros H. unfold is_rate_limit. cbn [exc_msg exc_type].
  rewrite <- (contains_digits_lower "429" m) by reflexivity.
  rewrite <- (contains_digits_lower "429" m') by reflexivity.
  now rewrite H.
Qed.

Lemma is_rate_limit_case_blind_witness :
  lower "Too Many Requests: RATE LIMIT exceeded"
    = lower "too many requests: rate limit exceeded"
  /\ is_rate_limit (mk_exn "APIError" "Too Many Requests: RATE LIMIT exceeded")
     = is_rate_limit
         (mk_exn "APIError" "too many requests: rate limit exceeded").
Proof.
  split; [reflexivity|].
  apply (is_rate_limit_case_blind "APIError"
           "Too Many Requests: RATE LIMIT exceeded"
           "too many requests: rate limit exceeded").
  reflexivity.
Defined.

Lemma contains_wrapped (needle a s b : string) :
  contains needle s = true -> contains needle (a ++ s ++ b) = true.
Proof.
  rewrite !contains_spec. intros [x [y ->]].
  exists (a ++ x), (y ++ b). now rewrite !append_assoc.
Qed.

(** Text around a message does not undo the classification: an error
    classified as a rate-limit error stays one when its message is quoted
    inside a longer message. *)
Theorem is_rate_limit_wrapped (t m a b : string) :
  is_rate_limit (mk_exn t m) = true ->
  is_rate_limit (mk_exn t (a ++ m ++ b)) = true.
Proof.
  unfold is_rate_limit. cbn [exc_msg exc_type].
  rewrite !orb_true_iff, !lower_append.
  intros [[[H|H]|H]|H].
  - auto.
  - left; left; right. now apply contains_wrapped.
  - left; right. now apply contains_wrapped.
  - right. now apply contains_wrapped.
Qed.

Lemma is_rate_limit_wrapped_witness :
  is_rate_limit (mk_exn "APIStatusError" "Error code: 429") = true
  /\ is_rate_limit
       (mk_exn "APIStatusError"
               ("Request failed: " ++ "Error code: 429" ++ " (retry later)"))
     = true.
Proof.
  split; [reflexivity|].
  apply (is_rate_limit_wrapped "APIStatusError" "Error code: 429"
           "Request failed: " " (retry later)").
  reflexivity.
Defined.

(** * Further properties of the phase chain *)

(** ** The summary *)

Lemma print_summary_eval (st : state) :
  print_summary st
  = match first_missing (outputs st) with
    | Some k =>
        (Raise (key_error k),
         mk_state (outputs st) (requests st) (log st ++ summary_banners))
    | None =>
        (Ok tt,
         mk_state (outputs st) (requests st)
                  (log st ++ summary_banners
                   ++ [EvReport (report_sections (outputs st))]))
    end.
Proof.
  destruct st as [o r l].
  unfold print_summary, first_missing, report_sections, get_or_empty,
    summary_banners.
  rewrite !bind_emit. cbn [outputs requests log phase_keys find].
  rewrite <- !app_assoc. cbn [app].
  repeat (rewrite bind_lookup; cbn [outputs];
          match goal with
          | |- context [dict_get ?k o] => destruct (dict_get k o); [|reflexivity]
          end).
  unfold emit. cbn [outputs requests log]. rewrite <- !app_assoc.
  reflexivity.
Qed.

(** [print_summary] reads the five outputs in phase order before it writes
    anything: on a store that lacks one of them it raises the KeyError of the
    first missing key and writes no report; on a store that has them all it
    writes the report with the five stored texts and returns.  So a report is
    written exactly when the store holds all five outputs. *)
Theorem print_summary_by_store (st : state) (res : result unit) (st' : state) :
  print_summary st = (res, st') ->
  (forall k, first_missing (outputs st) = Some k ->
     res = Raise (key_error k)
     /\ st' = mk_state (outputs st) (requests st) (log st ++ summary_banners))
  /\ (first_missing (outputs st) = None ->
      res = Ok tt
      /\ st' = mk_state (outputs st) (requests st)
                        (log st ++ summary_banners
                         ++ [EvReport (report_sections (outputs st))]))
  /\ ((exists sections, log st' = (log st ++ summary_banners
                                   ++ [EvReport sections])%list)
      <-> first_missing (outputs st) = None).
Proof.
  rewrite print_summary_eval.
  destruct (first_missing (outputs st)) as [k|]; intros H;
    injection H as <- <-; cbn [log].
  - split; [intros k' Hk; injection Hk as <-; now split|].
    split; [discriminate|]. split; [|discriminate].
    intros [sections Hs]. apply app_inv_head in Hs.
    rewrite <- (app_nil_r summary_banners) in Hs at 1.
    apply app_inv_head in Hs. discriminate.
  - split; [discriminate|]. split; [now split|].
    split; [reflexivity|]. intros _.
    exists (report_sections (outputs st)). reflexivity.
Qed.

Lemma print_summary_by_store_witness :
  print_summary new_workflow
  = (Raise (key_error "research"),
     mk_state [] 0 [EvBanner "FINAL SUMMARY";
                    EvBanner "FULL RESULTS - ALL PHASES"])
  /\ first_missing (outputs new_workflow) = Some "research"
  /\ @Raise unit (key_error "research") = Raise (key_error "research").
Proof.
  assert (H : print_summary new_workflow
              = (Raise (key_error "research"),
                 mk_state [] 0 [EvBanner "FINAL SUMMARY";
                                EvBanner "FULL RESULTS - ALL PHASES"]))
    by reflexivity.
  split; [exact H|]. split; [reflexivity|].
  exact (proj1 (proj1 (print_summary_by_store _ _ _ H) "research" eq_refl)).
Defined.

(** ** Phases that run to their end *)

Lemma phase_tail_iff env sp um key st st' :
  (response <- _make_api_call env sp um default_max_retries ;;
   text <- message_content response ;;
   store key text) st = (Ok tt, st') <->
  exists ws c,
    answered env (requests st) ws c
    /\ st' = mk_state (dict_set key c (outputs st))
                      (requests st + S (List.length ws))
                      (log st ++ call_trace sp um ws ++ [EvStore key c]).
Proof.
  unfold bind, default_max_retries. split.
  - intros H.
    destruct (_make_api_call env sp um 3 st) as [[[r|]|e] s1] eqn:E;
      try discriminate.
    apply make_api_call_trace in E as [ws [Hr [Hlen [-> Hend]]]]; [|lia].
    unfold ends_with in Hend.
    destruct (env (requests st + List.length ws)%nat) as [r0|e] eqn:He.
    + injection Hend as Heq. subst r0.
      unfold message_content, ret, store in H.
      cbn [outputs requests log] in H. injection H as <-.
      exists ws, (content r). split.
      * split; [exact Hr|]. split; [lia|]. now exists r.
      * now rewrite <- app_assoc.
    + destruct (is_rate_limit e); [|discriminate].
      destruct (wait_time (exc_msg e)); [|discriminate].
      match type of Hend with
      | if ?b then _ else _ => destruct b; [discriminate|]
      end.
      destruct Hend as [e' [_ Hend]]. discriminate.
  - intros [ws [c [[Hr [Hlen [r [He Hc]]]] ->]]].
    assert (E : _make_api_call env sp um 3 st
                = (Ok (Some r),
                   mk_state (outputs st) (requests st + S (List.length ws))
                            (log st ++ call_trace sp um ws))).
    { apply make_api_call_of_trace; [lia | exact Hr | lia |].
      unfold ends_with. now rewrite He. }
    rewrite E. unfold message_content, ret, store.
    cbn [outputs requests log]. subst c. now rewrite <- app_assoc.
Qed.

Lemma phase_body_iff env title sp um key st st' :
  (emit (EvBanner title) ;;
   response <- _make_api_call env sp um default_max_retries ;;
   text <- message_content response ;;
   store key text) st = (Ok tt, st') <->
  exists ws c,
    answered env (requests st) ws c
    /\ st' = mk_state (dict_set key c (outputs st))
                      (requests st + S (List.length ws))
                      (log st ++ phase_log title sp um ws key c).
Proof.
  rewrite bind_emit, phase_tail_iff. cbn [outputs requests log].
  unfold phase_log.
  split; intros [ws [c [Ha ->]]]; exists ws, c; (split; [exact Ha|]);
    f_equal; now rewrite <- app_assoc.
Qed.

Lemma phase_body1_iff env title sp (um : string -> string) k key st st' :
  (emit (EvBanner title) ;;
   x <- lookup k ;;
   response <- _make_api_call env sp (um x) default_max_retries ;;
   text <- message_content response ;;
   store key text) st = (Ok tt, st') <->
  exists x ws c,
    dict_get k (outputs st) = Some x
    /\ answered env (requests st) ws c
    /\ st' = mk_state (dict_set key c (outputs st))
                      (requests st + S (List.length ws))
                      (log st ++ phase_log title sp (um x) ws key c).
Proof.
  rewrite bind_emit, bind_lookup. cbn [outputs].
  destruct (dict_get k (outputs st)) as [x|].
  - rewrite <- (bind_emit (EvBanner title)), phase_body_iff.
    split.
    + intros [ws [c H]]. now exists x, ws, c.
    + intros [x' [ws [c [Hx H]]]]. injection Hx as <-. now exists ws, c.
  - split; [discriminate|]. intros [x [ws [c [H _]]]]. discriminate.
Qed.

Lemma phase_body2_iff env title sp (um : string -> string -> string)
    k1 k2 key st st' :
  (emit (EvBanner title) ;;
   x <- lookup k1 ;;
   y <- lookup k2 ;;
   response <- _make_api_call env sp (um x y) default_max_retries ;;
   text <- message_content response ;;
   store key text) st = (Ok tt, st') <->
  exists x y ws c,
    dict_get k1 (outputs st) = Some x
    /\ dict_get k2 (outputs st) = Some y
    /\ answered env (requests st) ws c
    /\ st' = mk_state (dict_set key c (outputs st))
                      (requests st + S (List.length ws))
                      (log st ++ phase_log title sp (um x y) ws key c).
Proof.
  rewrite bind_emit, bind_lookup. cbn [outputs].
  destruct (dict_get k1 (outputs st)) as [x|].
  - rewrite bind_lookup. cbn [outputs].
    destruct (dict_get k2 (outputs st)) as [y|].
    + rewrite <- (bind_emit (EvBanner title)), phase_body_iff.
      split.
      * intros [ws [c H]]. now exists x, y, ws, c.
      * intros [x' [y' [ws [c [Hx [Hy H]]]]]].
        injection Hx as <-. injection Hy as <-. now exists ws, c.
    + split; [discriminate|].
      intros [x' [y [ws [c [_ [H _]]]]]]. discriminate.
  - split; [discriminate|]. intros [x [y [ws [c [H _]]]]]. discriminate.
Qed.

(** Each phase, when it runs to its end: what it read from the store, the
    prompts of its requests, what it stored. *)
Lemma phase_research_iff env st st' :
  phase_research env st = (Ok tt, st') <->
  exists ws c,
    answered env (requests st) ws c
    /\ st' = mk_state (dict_set "research" c (outputs st))
                      (requests st + S (List.length ws))
                      (log st ++ phase_log "PHASE 1: MARKET RESEARCH"
                                   research_system research_user ws
                                   "research" c).
Proof. exact (phase_body_iff env _ _ _ _ st st'). Qed.

Lemma phase_analysis_iff env st st' :
  phase_analysis env st = (Ok tt, st') <->
  exists x ws c,
    dict_get "research" (outputs st) = Some x
    /\ answered env (requests st) ws c
    /\ st' = mk_state (dict_set "analysis" c (outputs st))
                      (requests st + S (List.length ws))
                      (log st ++ phase_log "PHASE 2: OPPORTUNITY ANALYSIS"
                                   analysis_system (analysis_user x) ws
                                   "analysis" c).
Proof. exact (phase_body1_iff env _ _ analysis_user _ _ st st'). Qed.

Lemma phase_blueprint_iff env st st' :
  phase_blueprint env st = (Ok tt, st') <->
  exists x ws c,
    dict_get "analysis" (outputs st) = Some x
    /\ answered env (requests st) ws c
    /\ st' = mk_state (dict_set "blueprint" c (outputs st))
                      (requests st + S (List.length ws))
                      (log st ++ phase_log "PHASE 3: PRODUCT BLUEPRINT"
                                   blueprint_system (blueprint_user x) ws
                                   "blueprint" c).
Proof. exact (phase_body1_iff env _ _ blueprint_user _ _ st st'). Qed.

Lemma phase_technical_iff env st st' :
  phase_technical env st = (Ok tt, st') <->
  exists x ws c,
    dict_get "blueprint" (outputs st) = Some x
    /\ answered env (requests st) ws c
    /\ st' = mk_state (dict_set "technical" c (outputs st))
                      (requests st + S (List.length ws))
                      (log st ++ phase_log "PHASE 4: TECHNICAL ARCHITECTURE"
                                   technical_system (technical_user x) ws
                                   "technical" c).
Proof. exact (phase_body1_iff env _ _ technical_user _ _ st st'). Qed.

Lemma phase_review_iff env st st' :
  phase_review env st = (Ok tt, st') <->
  exists x y ws c,
    dict_get "blueprint" (outputs st) = Some x
    /\ dict_get "technical" (outputs st) = Some y
    /\ answered env (requests st) ws c
    /\ st' = mk_state (dict_set "review" c (outputs st))
                      (requests st + S (List.length ws))
                      (log st ++ phase_log "PHASE 5: STRATEGIC REVIEW"
                                   review_system (review_user x y) ws
                                   "review" c).
Proof. exact (phase_body2_iff env _ _ review_user _ _ _ st st'). Qed.

(** ** Runs that end well *)

Lemma bind_Ok_inv {B} (m : M unit) (k : M B) st b st' :
  (m ;; k) st = (Ok b, st') ->
  exists s1, m st = (Ok tt, s1) /\ k s1 = (Ok b, st').
Proof.
  unfold bind. destruct (m st) as [[[]|e] s1]; [|discriminate].
  intros H. now exists s1.
Qed.

Lemma bind_Ok_step {B} (m : M unit) (k : M B) st s1 :
  m st = (Ok tt, s1) -> (m ;; k) st = k s1.
Proof. unfold bind. now intros ->. Qed.

(** The runs on a fresh workflow that end well, exactly.  Each of the five
    phases, in order, has its call retried at most twice, after rate-limit
    errors whose computed waits [sleep] accepts, and then answered;
    the answer of a phase is what the store holds under its key and what the
    later prompts quote: the analysis prompt quotes the research text, the
    blueprint prompt the analysis, the technical prompt the blueprint, the
    review prompt the blueprint and the technical text.  The log is the
    banner of the run, the events of the five phases, the two banners of the
    summary and the report. *)
Theorem successful_run_iff (env : remote) (st' : state) :
  run env new_workflow = (Ok tt, st') <->
  exists ws1 ws2 ws3 ws4 ws5 c1 c2 c3 c4 c5,
    answered env 0 ws1 c1
    /\ answered env (S (List.length ws1)) ws2 c2
    /\ answered env (S (List.length ws1) + S (List.length ws2)) ws3 c3
    /\ answered env (S (List.length ws1) + S (List.length ws2)
                     + S (List.length ws3)) ws4 c4
    /\ answered env (S (List.length ws1) + S (List.length ws2)
                     + S (List.length ws3) + S (List.length ws4)) ws5 c5
    /\ st' =
       mk_state
         [("research", c1); ("analysis", c2); ("blueprint", c3);
          ("technical", c4); ("review", c5)]
         (S (List.length ws1) + S (List.length ws2) + S (List.length ws3)
          + S (List.length ws4) + S (List.length ws5))
         ([EvBanner run_title]
          ++ phase_log "PHASE 1: MARKET RESEARCH"
                       research_system research_user ws1 "research" c1
          ++ phase_log "PHASE 2: OPPORTUNITY ANALYSIS"
                       analysis_system (analysis_user c1) ws2 "analysis" c2
          ++ phase_log "PHASE 3: PRODUCT BLUEPRINT"
                       blueprint_system (blueprint_user c2) ws3
                       "blueprint" c3
          ++ phase_log "PHASE 4: TECHNICAL ARCHITECTURE"
                       technical_system (technical_user c3) ws4
                       "technical" c4
          ++ phase_log "PHASE 5: STRATEGIC REVIEW"
                       review_system (review_user c3 c4) ws5 "review" c5
          ++ summary_banners
          ++ [EvReport [("PHASE 1: MARKET RESEARCH", c1);
                        ("PHASE 2: OPPORTUNITY ANALYSIS", c2);
                        ("PHASE 3: PRODUCT BLUEPRINT", c3);
                        ("PHASE 4: TECHNICAL ARCHITECTURE", c4);
                        ("PHASE 5: STRATEGIC REVIEW", c5)]]).
Proof.
  unfold run. rewrite bind_emit. cbn [outputs requests log new_workflow app].
  split.
  - intros H.
    apply bind_Ok_inv in H as [s1 [E H]].
    apply phase_research_iff in E as [ws1 [c1 [A1 ->]]].
    cbn [outputs requests log dict_set Nat.add] in *.
    apply bind_Ok_inv in H as [s2 [E H]].
    apply phase_analysis_iff in E as [x [ws2 [c2 [Hx [A2 ->]]]]].
    cbn [outputs requests log dict_get dict_set String.eqb Ascii.eqb
         Bool.eqb] in *.
    injection Hx as <-.
    apply bind_Ok_inv in H as [s3 [E H]].
    apply phase_blueprint_iff in E as [x [ws3 [c3 [Hx [A3 ->]]]]].
    cbn [outputs requests log dict_get dict_set String.eqb Ascii.eqb
         Bool.eqb] in *.
    injection Hx as <-.
    apply bind_Ok_inv in H as [s4 [E H]].
    apply phase_technical_iff in E as [x [ws4 [c4 [Hx [A4 ->]]]]].
    cbn [outputs requests log dict_get dict_set String.eqb Ascii.eqb
         Bool.eqb] in *.
    injection Hx as <-.
    apply bind_Ok_inv in H as [s5 [E H]].
    apply phase_review_iff in E as [x [y [ws5 [c5 [Hx [Hy [A5 ->]]]]]]].
    cbn [outputs requests log dict_get dict_set String.eqb Ascii.eqb
         Bool.eqb] in *.
    injection Hx as <-. injection Hy as <-.
    rewrite print_summary_eval in H.
    cbn [outputs requests log first_missing phase_keys find dict_get
         String.eqb Ascii.eqb Bool.eqb report_sections get_or_empty] in H.
    injection H as <-.
    exists ws1, ws2, ws3, ws4, ws5, c1, c2, c3, c4, c5.
    repeat (split; [assumption|]).
    f_equal. unfold phase_log, summary_banners, run_title.
    repeat (rewrite <- !app_assoc; cbn [app]). reflexivity.
  - intros [ws1 [ws2 [ws3 [ws4 [ws5 [c1 [c2 [c3 [c4 [c5
             [A1 [A2 [A3 [A4 [A5 ->]]]]]]]]]]]]]]].
    erewrite bind_Ok_step
      by (apply phase_research_iff; exists ws1, c1;
          split; [exact A1 | reflexivity]).
    erewrite bind_Ok_step
      by (apply phase_analysis_iff; exists c1, ws2, c2;
          split; [reflexivity | split; [exact A2 | reflexivity]]).
    erewrite bind_Ok_step
      by (apply phase_blueprint_iff; exists c2, ws3, c3;
          split; [reflexivity | split; [exact A3 | reflexivity]]).
    erewrite bind_Ok_step
      by (apply phase_technical_iff; exists c3, ws4, c4;
          split; [reflexivity | split; [exact A4 | reflexivity]]).
    erewrite bind_Ok_step
      by (apply phase_review_iff; exists c3, c4, ws5, c5;
          split; [reflexivity
                 | split; [reflexivity | split; [exact A5 | reflexivity]]]).
    rewrite print_summary_eval.
    cbn [outputs requests log first_missing phase_keys find dict_get dict_set
         String.eqb Ascii.eqb Bool.eqb report_sections get_or_empty Nat.add].
    f_equal. f_equal. unfold phase_log, summary_banners, run_title.
    repeat (rewrite <- !app_assoc; cbn [app]). reflexivity.
Qed.

(** ** What a run costs *)

Lemma count_requests_app l1 l2 :
  count_requests (l1 ++ l2) = (count_requests l1 + count_requests l2)%nat.
Proof.
  induction l1 as [|ev l1 IH]; simpl; [reflexivity|].
  destruct ev; simpl; lia.
Qed.

Lemma count_sleeps_app l1 l2 :
  count_sleeps (l1 ++ l2) = (count_sleeps l1 + count_sleeps l2)%nat.
Proof.
  induction l1 as [|ev l1 IH]; simpl; [reflexivity|].
  destruct ev; simpl; lia.
Qed.

Lemma phase_tail_cost env sp um key title st0 st res st' :
  log st = (log st0 ++ [EvBanner title])%list ->
  (response <- _make_api_call env sp um default_max_retries ;;
   text <- message_content response ;;
   store key text) st = (res, st') ->
  exists evs,
    log st' = (log st0 ++ evs)%list
    /\ (count_requests evs <= 3)%nat
    /\ (count_sleeps evs <= 2)%nat
    /\ (res = Ok tt -> (1 <= count_requests evs)%nat).
Proof.
  intros Hl H. unfold bind, default_max_retries in H.
  destruct (_make_api_call env sp um 3 st) as [r s1] eqn:E.
  apply make_api_call_trace in E as [ws [_ [Hlen [-> _]]]]; [|lia].
  assert (Hcalls :
            (log st ++ call_trace sp um ws
             = log st0 ++ EvBanner title :: call_trace sp um ws)%list)
    by (rewrite Hl, <- app_assoc; reflexivity).
  destruct r as [[r|]|e]; simpl in H; injection H as <- <-; cbn [log].
  - exists ((EvBanner title :: call_trace sp um ws)
            ++ [EvStore key (content r)])%list.
    rewrite Hcalls. split; [symmetry; apply app_assoc|].
    rewrite count_requests_app, count_sleeps_app.
    cbn [count_requests count_sleeps].
    rewrite count_requests_call_trace, count_sleeps_call_trace.
    repeat split; lia.
  - exists (EvBanner title :: call_trace sp um ws)%list.
    split; [exact Hcalls|]. cbn [count_requests count_sleeps].
    rewrite count_requests_call_trace, count_sleeps_call_trace.
    repeat split; try lia; try discriminate.
  - exists (EvBanner title :: call_trace sp um ws)%list.
    split; [exact Hcalls|]. cbn [count_requests count_sleeps].
    rewrite count_requests_call_trace, count_sleeps_call_trace.
    repeat split; try lia; try discriminate.
Qed.

Lemma phase_cost env title key p st res st' :
  In (title, key, p) (phase_list env) ->
  p st = (res, st') ->
  exists evs,
    log st' = (log st ++ evs)%list
    /\ (count_requests evs <= 3)%nat
    /\ (count_sleeps evs <= 2)%nat
    /\ (res = Ok tt -> (1 <= count_requests evs)%nat).
Proof.
  intros Hin H. unfold phase_list in Hin. cbn [In] in Hin.
  repeat (destruct Hin as [Hin|Hin];
          [injection Hin as <- <- <-|]); try contradiction;
    match type of H with ?f env st = _ => unfold f in H end;
    rewrite bind_emit in H;
    repeat (rewrite bind_lookup in H; cbn [outputs] in H;
            match type of H with
            | match ?d with _ => _ end = _ => destruct d
            end);
    try (injection H as <- <-; eexists [_]; cbn [log];
         split; [reflexivity|]; simpl; repeat split; try lia; discriminate);
    (eapply phase_tail_cost; [|exact H]; reflexivity).
Qed.

Lemma seq_run_cost env (ps : list (string * string * M unit)) :
  incl ps (phase_list env) ->
  forall st res s,
    seq_run (map snd ps) st = (res, s) ->
    exists evs,
      log s = (log st ++ evs)%list
      /\ (count_requests evs <= 3 * List.length ps)%nat
      /\ (count_sleeps evs <= 2 * List.length ps)%nat
      /\ (res = Ok tt -> (List.length ps <= count_requests evs)%nat).
Proof.
  induction ps as [|[[title key] p] ps IH]; intros Hincl st res s H.
  - injection H as _ <-. exists []. rewrite app_nil_r. simpl.
    repeat split; lia.
  - cbn [map snd seq_run] in H. unfold bind in H.
    assert (Hin : In (title, key, p) (phase_list env))
      by (apply Hincl; now left).
    assert (Hincl' : incl ps (phase_list env))
      by (intros x Hx; apply Hincl; now right).
    destruct (p st) as [[[]|e] s1] eqn:E;
      destruct (phase_cost _ _ _ _ _ _ _ Hin E)
        as [evs [Hl [Hr [Hs Hok]]]].
    + destruct (IH Hincl' _ _ _ H) as [evs' [Hl' [Hr' [Hs' Hok']]]].
      exists (evs ++ evs')%list. rewrite Hl', Hl, <- app_assoc.
      rewrite count_requests_app, count_sleeps_app. cbn [List.length].
      specialize (Hok eq_refl).
      repeat split; try lia. intros ->. specialize (Hok' eq_refl). lia.
    + injection H as <- <-. exists evs. cbn [List.length].
      repeat split; try lia; try assumption; try discriminate.
Qed.

(** Whatever the remote does, a run on a fresh workflow sends at most 15
    requests and sleeps at most 10 times; a run that ends well has sent at
    least 5 requests. *)
Theorem run_cost (env : remote) (res : result unit) (st' : state) :
  run env new_workflow = (res, st') ->
  (count_requests (log st') <= 15)%nat
  /\ (count_sleeps (log st') <= 10)%nat
  /\ (res = Ok tt -> (5 <= count_requests (log st'))%nat).
Proof.
  intros H. rewrite run_as_sequence, bind_emit in H. unfold bind in H.
  match type of H with
  | context [seq_run ?ps ?st0] =>
      destruct (seq_run ps st0) as [r s5] eqn:E;
      destruct (seq_run_cost env _ (incl_refl _) _ _ _ E)
        as [evs [Hl [Hr [Hs Hok]]]]
  end.
  cbn [log new_workflow app List.length phase_list] in Hl, Hr, Hs, Hok.
  destruct r as [[]|e].
  - rewrite print_summary_eval in H.
    destruct (first_missing (outputs s5)); injection H as <- <-;
      cbn [log]; rewrite Hl; unfold summary_banners;
      cbn [count_requests count_sleeps];
      rewrite ?count_requests_app, ?count_sleeps_app;
      cbn [count_requests count_sleeps];
      try specialize (Hok eq_refl); repeat split; try lia; try discriminate.
  - injection H as <- <-. rewrite Hl. cbn [count_requests count_sleeps].
    repeat split; try lia; try discriminate.
Qed.

Lemma run_cost_witness :
  run (always (Raised plain_rate_limit_error)) new_workflow
  = (Raise plain_rate_limit_error,
     snd (run (always (Raised plain_rate_limit_error)) new_workflow))
  /\ (count_requests
        (log (snd (run (always (Raised plain_rate_limit_error))
                       new_workflow))) <= 15)%nat.
Proof.
  assert (H : run (always (Raised plain_rate_limit_error)) new_workflow
              = (Raise plain_rate_limit_error,
                 snd (run (always (Raised plain_rate_limit_error))
                          new_workflow)))
    by (vm_compute; reflexivity).
  split; [exact H|].
  exact (proj1 (run_cost _ _ _ H)).
Defined.

(** ** A second run on the same workflow *)

(** When [run] is called on a workflow whose store already holds the five
    outputs, as after an earlier run, and ends well, the store holds the same
    five keys in the same order with the texts of this run: each key was
    assigned once more, over its old text. *)
Theorem rerun_replaces_in_place (env : remote) (st st' : state)
    (a1 a2 a3 a4 a5 : string) :
  outputs st = [("research", a1); ("analysis", a2); ("blueprint", a3);
                ("technical", a4); ("review", a5)] ->
  run env st = (Ok tt, st') ->
  exists c1 c2 c3 c4 c5,
    outputs st' = [("research", c1); ("analysis", c2); ("blueprint", c3);
                   ("technical", c4); ("review", c5)]
    /\ stores (log st') = (stores (log st) ++ outputs st')%list.
Proof.
  intros Ho H. rewrite run_as_sequence, bind_emit in H. unfold bind in H.
  match type of H with
  | context [seq_run ?ps ?st0] =>
      destruct (seq_run ps st0) as [[[]|e] s5] eqn:E; [|discriminate];
      destruct (seq_run_completed env _ (incl_refl _) _ _ E)
        as [texts [Hlen [Hout Hst]]]
  end.
  destruct texts as [|c1 [|c2 [|c3 [|c4 [|c5 [|c6 texts]]]]]];
    try discriminate.
  cbn [outputs log] in Hout, Hst. rewrite Ho in Hout.
  cbn in Hout.
  rewrite (print_summary_all_present _ _ _ _ _ _ Hout) in H.
  injection H as <-. cbn [outputs log].
  exists c1, c2, c3, c4, c5. split; [exact Hout|].
  rewrite stores_app, Hst, stores_app, Hout. cbn.
  now rewrite !app_nil_r.
Qed.

Lemma rerun_replaces_in_place_witness :
  outputs (snd (run (answers "old") new_workflow))
  = [("research", "old"); ("analysis", "old"); ("blueprint", "old");
     ("technical", "old"); ("review", "old")]
  /\ run (answers "new") (snd (run (answers "old") new_workflow))
     = (Ok tt,
        snd (run (answers "new") (snd (run (answers "old") new_workflow))))
  /\ exists c1 c2 c3 c4 c5,
       outputs (snd (run (answers "new")
                         (snd (run (answers "old") new_workflow))))
       = [("research", c1); ("analysis", c2); ("blueprint", c3);
          ("technical", c4); ("review", c5)]
       /\ stores (log (snd (run (answers "new")
                                (snd (run (answers "old") new_workflow)))))
          = (stores (log (snd (run (answers "old") new_workflow)))
             ++ outputs (snd (run (answers "new")
                                  (snd (run (answers "old")
                                            new_workflow)))))%list.
Proof.
  assert (Ho : outputs (snd (run (answers "old") new_workflow))
               = [("research", "old"); ("analysis", "old");
                  ("blueprint", "old"); ("technical", "old");
                  ("review", "old")])
    by (vm_compute; reflexivity).
  assert (H : run (answers "new") (snd (run (answers "old") new_workflow))
              = (Ok tt,
                 snd (run (answers "new")
                          (snd (run (answers "old") new_workflow)))))
    by (vm_compute; reflexivity).
  split; [exact Ho|]. split; [exact H|].
  exact (rerun_replaces_in_place _ _ _ _ _ _ _ _ Ho H).
Defined.

(** ** Phases out of order *)

(** A phase that quotes an earlier output raises the KeyError of that output
    when the store lacks it, right after its banner: it sends no request and
    leaves the store as it was.  The review phase looks for the blueprint
    first and for the technical text second. *)
Theorem phase_without_input (env : remote) (st : state) :
  (dict_get "research" (outputs st) = None ->
   phase_analysis env st
   = (Raise (key_error "research"),
      mk_state (outputs st) (requests st)
               (log st ++ [EvBanner "PHASE 2: OPPORTUNITY ANALYSIS"])))
  /\ (dict_get "analysis" (outputs st) = None ->
      phase_blueprint env st
      = (Raise (key_error "analysis"),
         mk_state (outputs st) (requests st)
                  (log st ++ [EvBanner "PHASE 3: PRODUCT BLUEPRINT"])))
  /\ (dict_get "blueprint" (outputs st) = None ->
      phase_technical env st
      = (Raise (key_error "blueprint"),
         mk_state (outputs st) (requests st)
                  (log st ++ [EvBanner "PHASE 4: TECHNICAL ARCHITECTURE"])))
  /\ (dict_get "blueprint" (outputs st) = None ->
      phase_review env st
      = (Raise (key_error "blueprint"),
         mk_state (outputs st) (requests st)
                  (log st ++ [EvBanner "PHASE 5: STRATEGIC REVIEW"])))
  /\ (forall b, dict_get "blueprint" (outputs st) = Some b ->
      dict_get "technical" (outputs st) = None ->
      phase_review env st
      = (Raise (key_error "technical"),
         mk_state (outputs st) (requests st)
                  (log st ++ [EvBanner "PHASE 5: STRATEGIC REVIEW"]))).
Proof.
  repeat split; [intros H | intros H | intros H | intros H | intros b Hb H];
    match goal with |- ?f env st = _ => unfold f end;
    rewrite bind_emit, bind_lookup; cbn [outputs];
    try rewrite Hb; try rewrite bind_lookup; cbn [outputs];
    rewrite H; reflexivity.
Qed.

Lemma phase_without_input_witness :
  dict_get "research" (outputs new_workflow) = None
  /\ phase_analysis (answers "text") new_workflow
     = (Raise (key_error "research"),
        mk_state [] 0 [EvBanner "PHASE 2: OPPORTUNITY ANALYSIS"]).
Proof.
  split; [reflexivity|].
  exact (proj1 (phase_without_input (answers "text") new_workflow) eq_refl).
Defined.

(** ** Whole-number hints *)

Section ExactRounding.

Lemma digits2_pos_bounds (p : positive) :
  2 ^ (Zpos (digits2_pos p) - 1) <= Zpos p < 2 ^ Zpos (digits2_pos p).
Proof.
  induction p as [p IH|p IH|]; cbn [digits2_pos].
  - rewrite Pos2Z.inj_succ.
    replace (Z.succ (Zpos (digits2_pos p)) - 1) with (Zpos (digits2_pos p))
      by lia.
    rewrite Z.pow_succ_r by lia.
    replace (Zpos (digits2_pos p))
      with (Z.succ (Zpos (digits2_pos p) - 1)) at 1 by lia.
    rewrite Z.pow_succ_r by lia. lia.
  - rewrite Pos2Z.inj_succ.
    replace (Z.succ (Zpos (digits2_pos p)) - 1) with (Zpos (digits2_pos p))
      by lia.
    rewrite Z.pow_succ_r by lia.
    replace (Zpos (digits2_pos p))
      with (Z.succ (Zpos (digits2_pos p) - 1)) at 1 by lia.
    rewrite Z.pow_succ_r by lia. lia.
  - simpl. lia.
Qed.

(** The number of binary digits is fixed by the bounds. *)
Lemma digits_unique (n d d' : Z) :
  0 < d -> 0 < d' ->
  2 ^ (d - 1) <= n < 2 ^ d -> 2 ^ (d' - 1) <= n < 2 ^ d' -> d = d'.
Proof.
  intros Hd Hd' [Hl Hu] [Hl' Hu'].
  destruct (Z.lt_trichotomy d d') as [Hlt | [Heq | Hgt]]; [|exact Heq|].
  - assert (2 ^ d <= 2 ^ (d' - 1)) by (apply Z.pow_le_mono_r; lia). lia.
  - assert (2 ^ d' <= 2 ^ (d - 1)) by (apply Z.pow_le_mono_r; lia). lia.
Qed.

Lemma Zdigits2_shift (n : positive) (k : Z) (m : positive) :
  0 <= k -> Zpos m = Zpos n * 2 ^ k ->
  Zdigits2 (Zpos m) = Zdigits2 (Zpos n) + k.
Proof.
  intros Hk Hm. cbn [Zdigits2].
  pose proof (digits2_pos_bounds m) as Bm.
  pose proof (digits2_pos_bounds n) as Bn.
  apply (digits_unique (Zpos m)); try lia.
  rewrite Hm.
  replace (Zpos (digits2_pos n) + k - 1)
    with ((Zpos (digits2_pos n) - 1) + k) by lia.
  rewrite !Z.pow_add_r by lia.
  assert (0 < 2 ^ k) by (apply Z.pow_pos_nonneg; lia).
  split; [apply Z.mul_le_mono_nonneg_r | apply Z.mul_lt_mono_pos_r]; lia.
Qed.

Lemma shr_1_even (q : Z) :
  0 <= q ->
  shr_1 (Build_shr_record (2 * q) false false)
  = Build_shr_record q false false.
Proof. intros Hq. destruct q; try lia; reflexivity. Qed.

(** Shifting out zeros loses nothing. *)
Lemma iter_shr_exact (p : positive) :
  forall q, 0 <= q ->
    iter_pos shr_1 p (Build_shr_record (q * 2 ^ Zpos p) false false)
    = Build_shr_record q false false.
Proof.
  induction p as [p IH|p IH|]; intros q Hq; cbn [iter_pos].
  - replace (q * 2 ^ Zpos p~1)
      with (2 * ((q * 2 ^ Zpos p) * 2 ^ Zpos p)).
    + rewrite shr_1_even, IH, IH; try reflexivity; try exact Hq.
      * apply Z.mul_nonneg_nonneg; [exact Hq | apply Z.pow_nonneg; lia].
      * apply Z.mul_nonneg_nonneg;
          [apply Z.mul_nonneg_nonneg; [exact Hq|] |];
          apply Z.pow_nonneg; lia.
    + replace (Zpos p~1) with (2 * Zpos p + 1) by reflexivity.
      rewrite Z.pow_add_r, Z.pow_twice_r by lia. ring.
  - replace (q * 2 ^ Zpos p~0) with ((q * 2 ^ Zpos p) * 2 ^ Zpos p)
      by (replace (Zpos p~0) with (2 * Zpos p) by reflexivity;
          rewrite Z.pow_twice_r; ring).
    rewrite IH, IH; try reflexivity; try exact Hq.
    apply Z.mul_nonneg_nonneg; [exact Hq | apply Z.pow_nonneg; lia].
  - replace (q * 2 ^ 1) with (2 * q) by ring. now apply shr_1_even.
Qed.

End ExactRounding.

Section ExactFloats.

Lemma digits_below_53 (n : positive) :
  Zpos n < 2 ^ 53 -> 1 <= Zpos (digits2_pos n) <= 53.
Proof.
  intros Hn. pose proof (digits2_pos_bounds n) as [Hl _].
  split; [lia|].
  destruct (Z.le_gt_cases (Zpos (digits2_pos n)) 53) as [H|H]; [exact H|].
  assert (2 ^ 53 <= 2 ^ (Zpos (digits2_pos n) - 1))
    by (apply Z.pow_le_mono_r; lia).
  lia.
Qed.

(** A mantissa and exponent that write a whole number below 2^53 go through
    the shift of the rounding unchanged in value. *)
Lemma shr_fexp_exact (m : positive) (e : Z) (n : positive) :
  e <= 0 -> Zpos m = Zpos n * 2 ^ (- e) -> Zpos n < 2 ^ 53 ->
  exists m' e',
    shr_fexp PyFloat.prec PyFloat.emax (Zpos m) e loc_Exact
    = (Build_shr_record (Zpos m') false false, e')
    /\ e' <= 0 /\ Zpos m' = Zpos n * 2 ^ (- e').
Proof.
  intros He Hm Hn.
  pose proof (digits_below_53 n Hn) as Hd.
  pose proof (Zdigits2_shift n (- e) m ltac:(lia) Hm) as Hdm.
  unfold shr_fexp. rewrite Hdm. cbn [Zdigits2 shr_record_of_loc].
  assert (Hsh : fexp PyFloat.prec PyFloat.emax
                     (Zpos (digits2_pos n) + - e + e) - e
                = Zpos (digits2_pos n) - 53 - e).
  { unfold fexp, emin, PyFloat.prec, PyFloat.emax. lia. }
  rewrite Hsh. unfold shr.
  destruct (Zpos (digits2_pos n) - 53 - e) as [|p|p] eqn:Ep.
  - exists m, e. auto.
  - assert (Hq : Zpos m = (Zpos n * 2 ^ (53 - Zpos (digits2_pos n)))
                          * 2 ^ Zpos p).
    { rewrite Hm, <- Z.mul_assoc, <- Z.pow_add_r by lia.
      f_equal. f_equal. lia. }
    assert (Hpos : 0 < Zpos n * 2 ^ (53 - Zpos (digits2_pos n))).
    { apply Z.mul_pos_pos; [lia | apply Z.pow_pos_nonneg; lia]. }
    destruct (Zpos n * 2 ^ (53 - Zpos (digits2_pos n))) as [|m'|m'] eqn:Em;
      try lia.
    exists m', (e + Zpos p). rewrite Hq, iter_shr_exact by lia.
    split; [reflexivity|]. split; [lia|].
    rewrite <- Em. f_equal. f_equal. lia.
  - exists m, e. auto.
Qed.

Lemma binary_round_aux_exact (m : positive) (e : Z) (n : positive) :
  e <= 0 -> Zpos m = Zpos n * 2 ^ (- e) -> Zpos n < 2 ^ 53 ->
  exists m' e',
    binary_round_aux PyFloat.prec PyFloat.emax false (Zpos m) e loc_Exact
    = S754_finite false m' e'
    /\ e' <= 0 /\ Zpos m' = Zpos n * 2 ^ (- e').
Proof.
  intros He Hm Hn. unfold binary_round_aux.
  destruct (shr_fexp_exact m e n He Hm Hn) as [m1 [e1 [-> [He1 Hm1]]]].
  cbn [shr_m loc_of_shr_record round_nearest_even].
  destruct (shr_fexp_exact m1 e1 n He1 Hm1 Hn) as [m2 [e2 [-> [He2 Hm2]]]].
  cbn [shr_m]. exists m2, e2.
  replace (e2 <=? PyFloat.emax - PyFloat.prec) with true
    by (symmetry; apply Z.leb_le; unfold PyFloat.emax, PyFloat.prec; lia).
  auto.
Qed.

(** [int] of a float that writes a whole number is that number. *)
Lemma int_exact (m : positive) (e : Z) (n : Z) :
  e <= 0 -> Zpos m = n * 2 ^ (- e) ->
  PyFloat.int (S754_finite false m e) = Ok n.
Proof.
  intros He Hm. cbn [PyFloat.int]. f_equal.
  destruct (0 <=? e) eqn:E.
  - apply Z.leb_le in E. replace e with 0 in * by lia.
    rewrite Hm. simpl. lia.
  - rewrite Hm. apply Z.div_mul.
    apply Z.pow_nonzero; lia.
Qed.

End ExactFloats.

Section WholeNumbers.

Lemma span_all_chars (p : ascii -> bool) (s : string) :
  all_chars p s = true -> span p s = (s, EmptyString).
Proof.
  induction s as [|c s IH]; simpl; [reflexivity|].
  intros H. apply andb_true_iff in H as [-> Hs]. now rewrite (IH Hs).
Qed.

Lemma digits_val_nonneg (s : string) :
  all_chars is_digit s = true ->
  forall acc, 0 <= acc -> 0 <= PyFloat.digits_val acc s.
Proof.
  induction s as [|c s IH]; cbn [all_chars PyFloat.digits_val];
    intros H acc Hacc; [exact Hacc|].
  apply andb_true_iff in H as [Hc Hs]. apply (IH Hs).
  unfold is_digit in Hc. apply andb_true_iff in Hc as [Hc _].
  apply N.leb_le, N2Z.inj_le in Hc. change (Z.of_N 48) with 48 in Hc.
  unfold PyFloat.digit_val. lia.
Qed.

(** [float] of a token of digits. *)
Lemma float_of_digits (tok : string) :
  all_chars is_digit tok = true -> tok <> EmptyString ->
  PyFloat.float tok
  = match PyFloat.digits_val 0 tok with
    | Zpos p => Ok (PyFloat.round_ratio p 1)
    | _ => Ok (S754_zero false)
    end
  /\ decimal_value tok = Some (inject_Z (PyFloat.digits_val 0 tok)).
Proof.
  intros Hd Hne. unfold decimal_value, PyFloat.float, PyFloat.parse_decimal.
  rewrite (span_all_chars _ _ Hd).
  destruct tok; [congruence|]. split; reflexivity.
Qed.

Lemma div_eucl_by_1 (a : Z) : Z.div_eucl a 1 = (a, 0).
Proof.
  pose proof (Z.div_eucl_eq a 1 ltac:(lia)) as H.
  pose proof (Z.mod_pos_bound a 1 ltac:(lia)) as Hr.
  unfold Z.modulo in Hr. destruct (Z.div_eucl a 1) as [q r].
  f_equal; lia.
Qed.

(** The float nearest to a whole number below 2^53 is that number. *)
Lemma round_ratio_whole (n : positive) :
  Zpos n < 2 ^ 53 ->
  exists m e,
    PyFloat.round_ratio n 1 = S754_finite false m e
    /\ e <= 0 /\ Zpos m = Zpos n * 2 ^ (- e).
Proof.
  intros Hn. pose proof (digits_below_53 n Hn) as Hd.
  unfold PyFloat.round_ratio, SFdiv_core_binary.
  cbn [Zdigits2 digits2_pos].
  assert (He : Z.min (fexp PyFloat.prec PyFloat.emax
                        (Zpos (digits2_pos n) + 0 - (1 + 0))) (0 - 0)
               = Zpos (digits2_pos n) - 54).
  { unfold fexp, emin, PyFloat.prec, PyFloat.emax. lia. }
  rewrite He.
  destruct (0 - 0 - (Zpos (digits2_pos n) - 54)) as [|s|s] eqn:Es; try lia.
  rewrite div_eucl_by_1, Z.shiftl_mul_pow2 by lia.
  assert (Hpos : 0 < Zpos n * 2 ^ Zpos s)
    by (apply Z.mul_pos_pos; [lia | apply Z.pow_pos_nonneg; lia]).
  destruct (Zpos n * 2 ^ Zpos s) as [|q|q] eqn:Eq; try lia.
  change (new_location 1 0) with loc_Exact.
  apply binary_round_aux_exact; [lia | | exact Hn].
  rewrite <- Eq. f_equal. f_equal. lia.
Qed.

(** The product of a float that writes a whole number and a whole-number
    float is exact when the product is below 2^53. *)
Lemma mul_whole (m : positive) (e : Z) (n : positive)
    (mk : positive) (ek : Z) (k : positive) :
  e <= 0 -> Zpos m = Zpos n * 2 ^ (- e) ->
  ek <= 0 -> Zpos mk = Zpos k * 2 ^ (- ek) ->
  Zpos n * Zpos k < 2 ^ 53 ->
  exists m' e',
    PyFloat.mul (S754_finite false m e) (S754_finite false mk ek)
    = S754_finite false m' e'
    /\ e' <= 0 /\ Zpos m' = (Zpos n * Zpos k) * 2 ^ (- e').
Proof.
  intros He Hm Hek Hmk Hnk. unfold PyFloat.mul, SFmul. cbn [xorb].
  apply (binary_round_aux_exact (m * mk) (e + ek) (n * k)); [lia | | exact Hnk].
  rewrite !Pos2Z.inj_mul, Hm, Hmk.
  replace (- (e + ek)) with (- e + - ek) by lia.
  rewrite Z.pow_add_r by lia. ring.
Qed.

Lemma stated_wait_whole (n : Z) (u : ascii) :
  stated_wait (inject_Z n) u = n * unit_seconds u + unit_buffer u.
Proof.
  unfold stated_wait, unit_seconds, unit_buffer.
  destruct (Ascii.eqb u "s"); [rewrite Qfloor_Z; lia|].
  destruct (Ascii.eqb u "m"); unfold Qfloor, Qmult, inject_Z; simpl;
    rewrite Z.div_1_r; reflexivity.
Qed.

(** For a hint whose number is written with digits only, the stated formula
    holds exactly, as long as the number of seconds stays below 2^53: the
    wait is the number times the seconds of the unit, plus the buffer. *)
Theorem whole_number_hint (msg tok : string) (u : ascii) :
  first_phrase tok u msg ->
  all_chars is_digit tok = true ->
  PyFloat.digits_val 0 tok * unit_seconds u < 2 ^ 53 ->
  decimal_value tok = Some (inject_Z (PyFloat.digits_val 0 tok))
  /\ wait_time msg = Ok (stated_wait (inject_Z (PyFloat.digits_val 0 tok)) u)
  /\ wait_time msg
     = Ok (PyFloat.digits_val 0 tok * unit_seconds u + unit_buffer u).
Proof.
  intros Hf Hd Hb.
  assert (Hne : tok <> EmptyString)
    by (destruct Hf as [? [? [[_ [H _]] _]]]; exact H).
  destruct (float_of_digits tok Hd Hne) as [Hfl Hdv].
  pose proof (digits_val_nonneg tok Hd 0 ltac:(lia)) as Hn0.
  split; [exact Hdv|]. rewrite stated_wait_whole.
  assert (Hw : wait_time msg
               = Ok (PyFloat.digits_val 0 tok * unit_seconds u
                     + unit_buffer u)); [|now split].
  rewrite (wait_time_first_phrase _ _ _ Hf), Hfl.
  unfold unit_seconds, unit_buffer in *.
  destruct (PyFloat.digits_val 0 tok) as [|n|n] eqn:En; [| |lia].
  - destruct (Ascii.eqb u "s"); [reflexivity|].
    destruct (Ascii.eqb u "m"); reflexivity.
  - destruct (round_ratio_whole n) as [m [e [-> [He Hm]]]].
    { destruct (Ascii.eqb u "s"); [lia|]. destruct (Ascii.eqb u "m"); lia. }
    destruct (Ascii.eqb u "s").
    { rewrite (int_exact m e (Zpos n) He Hm). f_equal; lia. }
    destruct (Ascii.eqb u "m").
    + destruct (mul_whole m e n 8444249301319680 (-47) 60 He Hm)
        as [m' [e' [Hmul [He' Hm']]]]; [lia | reflexivity | lia |].
      change (PyFloat.of_int 60)
        with (S754_finite false 8444249301319680 (-47)).
      rewrite Hmul, (int_exact m' e' _ He' Hm'). f_equal; lia.
    + destruct (mul_whole m e n 7916483719987200 (-41) 3600 He Hm)
        as [m' [e' [Hmul [He' Hm']]]]; [lia | reflexivity | lia |].
      change (PyFloat.of_int 3600)
        with (S754_finite false 7916483719987200 (-41)).
      rewrite Hmul, (int_exact m' e' _ He' Hm'). f_equal; lia.
Qed.

Lemma whole_number_hint_witness :
  first_phrase "7" "m" "Rate limit reached. Please try again in 7m"
  /\ all_chars is_digit "7" = true
  /\ PyFloat.digits_val 0 "7" * unit_seconds "m" < 2 ^ 53
  /\ wait_time "Rate limit reached. Please try again in 7m" = Ok 430.
Proof.
  assert (Hf : first_phrase "7" "m"
                 "Rate limit reached. Please try again in 7m")
    by (apply re_search_Some_iff; reflexivity).
  assert (Hb : PyFloat.digits_val 0 "7" * unit_seconds "m" < 2 ^ 53)
    by (vm_compute; reflexivity).
  split; [exact Hf|]. split; [reflexivity|]. split; [exact Hb|].
  exact (proj2 (proj2 (whole_number_hint _ "7" "m" Hf eq_refl Hb))).
Defined.

End WholeNumbers.

(** ** Where the errors of a run come from *)













(** * The conference planner: file name and command line *)

Section PlannerFacts.

Import Planner.

Lemma replace_char_length old new s :
  String.length (replace_char old new s) = String.length s.
Proof. induction s; simpl; congruence. Qed.

Lemma lower_length s : String.length (lower s) = String.length s.
Proof. induction s; simpl; congruence. Qed.

Lemma append_length (a b : string) :
  String.length (a ++ b) = (String.length a + String.length b)%nat.
Proof. induction a; simpl; congruence. Qed.

Lemma lower_char_idempotent c : lower_char (lower_char c) = lower_char c.
Proof. destruct c as [[] [] [] [] [] [] [] []]; reflexivity. Qed.

Lemma lower_idempotent s : lower (lower s) = lower s.
Proof.
  induction s as [|c s IH]; simpl; [reflexivity|].
  now rewrite IH, lower_char_idempotent.
Qed.

Lemma lower_replace_space s :
  lower (replace_char " " "_" s) = replace_char " " "_" (lower s).
Proof.
  induction s as [|c s IH]; simpl; [reflexivity|]. rewrite IH. f_equal.
  destruct c as [[] [] [] [] [] [] [] []]; reflexivity.
Qed.

Lemma replace_space_no_space s :
  all_chars (fun c => negb (Ascii.eqb c " ")) (replace_char " " "_" s) = true.
Proof.
  induction s as [|c s IH]; simpl; [reflexivity|]. rewrite IH.
  now destruct (Ascii.eqb_spec c " ") as [->|Hne];
    [|apply Ascii.eqb_neq in Hne; rewrite Hne].
Qed.

Lemma replace_space_idempotent s :
  replace_char " " "_" (replace_char " " "_" s) = replace_char " " "_" s.
Proof.
  induction s as [|c s IH]; simpl; [reflexivity|]. rewrite IH. f_equal.
  destruct (Ascii.eqb_spec c " ") as [->|Hne]; [reflexivity|].
  apply Ascii.eqb_neq in Hne. now rewrite Hne.
Qed.

(** The name of the report file is the fixed prefix, the topic in lower
    case with every space turned into an underscore, and the extension: as
    long as the topic plus 20 characters, without a space, and unchanged by
    lower-casing. *)
Theorem output_filename_shape (topic : string) :
  String.length (output_filename topic) = (20 + String.length topic)%nat
  /\ all_chars (fun c => negb (Ascii.eqb c " ")) (output_filename topic) = true
  /\ lower (output_filename topic) = output_filename topic
  /\ starts_with "conference_plan_" (output_filename topic) = true.
Proof.
  unfold output_filename. repeat split.
  - rewrite !append_length, replace_char_length, lower_length. simpl. lia.
  - rewrite !all_chars_append, replace_space_no_space. reflexivity.
  - rewrite !lower_append, lower_replace_space, lower_idempotent. reflexivity.
Qed.

(** Topics that differ only in the case of letters, or in a space against
    an underscore, get the same file name: the report of one run replaces
    the report of the other. *)
Theorem output_filename_collisions (t1 t2 : string) :
  lower (replace_char " " "_" t1) = lower (replace_char " " "_" t2) ->
  output_filename t1 = output_filename t2.
Proof.
  intros H. unfold output_filename.
  rewrite <- !lower_replace_space. now rewrite H.
Qed.

Lemma output_filename_collisions_witness :
  lower (replace_char " " "_" "AI in Healthcare")
    = lower (replace_char " " "_" "ai_in healthcare")
  /\ output_filename "AI in Healthcare" = output_filename "ai_in healthcare".
Proof.
  split; [reflexivity|].
  apply (output_filename_collisions "AI in Healthcare" "ai_in healthcare").
  reflexivity.
Defined.

Lemma contains_map_fixed (g : string -> string) needle :
  (forall a b, g (a ++ b) = g a ++ g b) ->
  g needle = needle ->
  forall s, contains needle s = true -> contains needle (g s) = true.
Proof.
  intros Happ Hfix s. rewrite !contains_spec. intros [a [b ->]].
  exists (g a), (g b). now rewrite !Happ, Hfix.
Qed.

Lemma replace_char_append old new a b :
  replace_char old new (a ++ b)
  = replace_char old new a ++ replace_char old new b.
Proof. induction a; simpl; congruence. Qed.

(** The topic is not cleaned of path separators: a slash in the topic is a
    slash in the file name. *)
Theorem output_filename_keeps_slash (topic : string) :
  contains "/" topic = true ->
  contains "/" (output_filename topic) = true.
Proof.
  intros H. unfold output_filename.
  apply contains_wrapped.
  apply (contains_map_fixed (replace_char " " "_"));
    [apply replace_char_append | reflexivity |].
  apply (contains_map_fixed lower);
    [apply lower_append | reflexivity | exact H].
Qed.

Lemma output_filename_keeps_slash_witness :
  contains "/" "AI/ML in Healthcare" = true
  /\ contains "/" (output_filename "AI/ML in Healthcare") = true.
Proof.
  split; [reflexivity|].
  apply (output_filename_keeps_slash "AI/ML in Healthcare"). reflexivity.
Defined.

Lemma argv_or_short argv i old :
  (List.length argv <= i)%nat -> argv_or argv i old = old.
Proof.
  intros H. unfold argv_or.
  destruct (Nat.ltb_spec i (List.length argv)); [lia | reflexivity].
Qed.

Lemma argv_or_prefix (front rest : list string) i old :
  (i < List.length front)%nat ->
  argv_or (front ++ rest) i old = nth i front old.
Proof.
  intros H. unfold argv_or. rewrite length_app.
  destruct (Nat.ltb_spec i (List.length front + List.length rest)); [|lia].
  now apply app_nth1.
Qed.

(** The command line sets at most four arguments, by position: topic,
    location, dates, audience.  Whatever the command line, the type, the
    duration and the number of attendees are the defaults; arguments after
    the fourth are ignored; with no argument the script calls [main] with
    the defaults of its signature. *)
Theorem parse_argv_positions :
  (forall argv,
      conference_type (parse_argv argv) = "professional development"
      /\ duration (parse_argv argv) = "3-day"
      /\ expected_attendees (parse_argv argv) = 300)
  /\ (forall prog topic loc dates audience rest,
        parse_argv (prog :: topic :: loc :: dates :: audience :: rest)
        = mk_kwargs topic "professional development" audience loc dates
                    "3-day" 300)
  /\ (forall argv, (List.length argv <= 1)%nat ->
        parse_argv argv = main_defaults)
  /\ (forall prog topic,
        parse_argv [prog; topic]
        = mk_kwargs topic
                    (conference_type main_defaults)
                    (target_audience main_defaults)
                    (location main_defaults)
                    (conference_dates main_defaults)
                    (duration main_defaults)
                    (expected_attendees main_defaults)).
Proof.
  split; [|split; [|split]].
  - intros argv. unfold parse_argv. cbn. auto.
  - intros prog topic loc dates audience rest. unfold parse_argv.
    change (prog :: topic :: loc :: dates :: audience :: rest)
      with ([prog; topic; loc; dates; audience] ++ rest)%list.
    rewrite !argv_or_prefix by (simpl; lia). reflexivity.
  - intros argv Hlen. unfold parse_argv.
    rewrite !argv_or_short by lia. reflexivity.
  - intros prog topic. reflexivity.
Qed.

End PlannerFacts.
